(** * Motion-detector service: the job lifecycle and the detector loop

    A shallow embedding of [app/models.py], [app/schemas.py],
    [app/metrics.py], [app/services/video_analyzer.py] and of
    [is_video_file], [process_video_analysis], [analyze_video] and
    [get_result] in [app/main.py].

    Python objects with side effects are modelled by explicit state passing:
    a [World] holds the committed rows of the [video_analysis] table, the
    existing files, the process-wide Prometheus metrics, a trace of the
    externally visible actions and the ORM object of the record as the
    session of a run holds it.  Every call that can raise ([db.query],
    [db.commit], [os.remove], the detector) takes its outcome from an
    environment record, so theorems quantify over every combination of
    failures. *)

From Stdlib Require Import ZArith QArith Ascii String List Lia.
From stdpp Require Import gmap strings list pretty.

Local Open Scope Z_scope.

(** ** Python exceptions *)

(** The subclasses of [Exception] that the modelled code raises or receives
    from its collaborators.  [str] is Python's [str(e)]. *)
Inductive Exception :=
| ValueError (msg : string)
| ZeroDivisionError (msg : string)
| SQLAlchemyError (msg : string)
| OSError (msg : string)
| RuntimeError (msg : string).

Definition str (e : Exception) : string :=
  match e with
  | ValueError msg | ZeroDivisionError msg | SQLAlchemyError msg
  | OSError msg | RuntimeError msg => msg
  end.

(** The result of running a piece of Python: it returns a value or raises. *)
Inductive Outcome (A : Type) :=
| Returned (a : A)
| Raised (e : Exception).
Arguments Returned {A} a.
Arguments Raised {A} e.

(** ** app/models.py *)

Inductive VideoStatus := PENDING | PROCESSING | COMPLETED | FAILED.

#[global] Instance VideoStatus_eq_dec : EqDecision VideoStatus.
Proof. solve_decision. Defined.

(** [VideoStatus.X.value] *)
Definition value (s : VideoStatus) : string :=
  match s with
  | PENDING => "pending"
  | PROCESSING => "processing"
  | COMPLETED => "completed"
  | FAILED => "failed"
  end.

(** A row of [video_analysis] without its primary key [id]: the table is a
    finite map from the key (the UUID, as a number) to the other columns.
    The nullable columns are options; time stamps are integers (microseconds
    since the epoch). *)
Record VideoAnalysis := {
  filename : string;
  upload_time : Z;
  analysis_time : option Z;
  has_motion : option bool;
  processing_duration_ms : option Z;
  status : VideoStatus;
  error_message : option string }.

(** Attribute assignments [video_record.x = v]. *)
Definition set_status (s : VideoStatus) (r : VideoAnalysis) : VideoAnalysis :=
  {| filename := filename r; upload_time := upload_time r;
     analysis_time := analysis_time r; has_motion := has_motion r;
     processing_duration_ms := processing_duration_ms r;
     status := s; error_message := error_message r |}.

Definition set_has_motion (b : bool) (r : VideoAnalysis) : VideoAnalysis :=
  {| filename := filename r; upload_time := upload_time r;
     analysis_time := analysis_time r; has_motion := Some b;
     processing_duration_ms := processing_duration_ms r;
     status := status r; error_message := error_message r |}.

Definition set_processing_duration_ms (ms : Z) (r : VideoAnalysis) : VideoAnalysis :=
  {| filename := filename r; upload_time := upload_time r;
     analysis_time := analysis_time r; has_motion := has_motion r;
     processing_duration_ms := Some ms;
     status := status r; error_message := error_message r |}.

Definition set_analysis_time (t : Z) (r : VideoAnalysis) : VideoAnalysis :=
  {| filename := filename r; upload_time := upload_time r;
     analysis_time := Some t; has_motion := has_motion r;
     processing_duration_ms := processing_duration_ms r;
     status := status r; error_message := error_message r |}.

Definition set_error_message (m : string) (r : VideoAnalysis) : VideoAnalysis :=
  {| filename := filename r; upload_time := upload_time r;
     analysis_time := analysis_time r; has_motion := has_motion r;
     processing_duration_ms := processing_duration_ms r;
     status := status r; error_message := Some m |}.

(** [VideoAnalysis(filename=..., status=VideoStatus.PENDING)] after the first
    commit: the column default fills [upload_time], every nullable column is
    NULL ([analyze_video], main.py lines 140-146). *)
Definition new_video_analysis (name : string) (utcnow : Z) : VideoAnalysis :=
  {| filename := name; upload_time := utcnow;
     analysis_time := None; has_motion := None;
     processing_duration_ms := None;
     status := PENDING; error_message := None |}.

(** ** app/metrics.py *)

(** The four process-wide collectors: a counter per label, the list of
    histogram observations (the float seconds are kept as rationals), a
    counter and a gauge. *)
Record Metrics := {
  video_processed_total : gmap string nat;
  video_processing_duration_seconds : list Q;
  video_errors_total : nat;
  videos_in_queue : Z }.

Definition labels (c : gmap string nat) (l : string) : nat := default 0%nat (c !! l).

Definition increment_video_processed_m (l : string) (m : Metrics) : Metrics :=
  {| video_processed_total := <[l := S (labels (video_processed_total m) l)]> (video_processed_total m);
     video_processing_duration_seconds := video_processing_duration_seconds m;
     video_errors_total := video_errors_total m;
     videos_in_queue := videos_in_queue m |}.

Definition observe_processing_duration_m (seconds : Q) (m : Metrics) : Metrics :=
  {| video_processed_total := video_processed_total m;
     video_processing_duration_seconds := video_processing_duration_seconds m ++ [seconds];
     video_errors_total := video_errors_total m;
     videos_in_queue := videos_in_queue m |}.

Definition increment_video_errors_m (m : Metrics) : Metrics :=
  {| video_processed_total := video_processed_total m;
     video_processing_duration_seconds := video_processing_duration_seconds m;
     video_errors_total := S (video_errors_total m);
     videos_in_queue := videos_in_queue m |}.

Definition set_videos_in_queue_m (count : Z) (m : Metrics) : Metrics :=
  {| video_processed_total := video_processed_total m;
     video_processing_duration_seconds := video_processing_duration_seconds m;
     video_errors_total := video_errors_total m;
     videos_in_queue := count |}.

(** ** The world the orchestrator acts on *)

Inductive Level := ERROR | INFO.

(** Externally visible actions, in the order they happen.  A call of the
    detector is recorded with the rows that are committed at that moment:
    [table] is what a lookup from any other session finds while the detector
    runs. *)
Inductive Event :=
| Log (level : Level) (msg : string)
| Commit (video_id : N) (row : VideoAnalysis)
| DetectMotion (video_path : string) (table : gmap N VideoAnalysis)
| Remove (path : string)
| Close.

(** [db] holds the committed rows (what any other session reads), [files] the
    paths for which [os.path.exists] is true.  [loaded] is the ORM object
    [video_record] as the session of the run holds it: the attribute values
    the object has in memory, [None] before the record is loaded and after a
    commit has expired it.  An assignment to an attribute changes this
    object and nothing else; a commit writes the object to [db]. *)
Record World := {
  db : gmap N VideoAnalysis;
  files : gset string;
  metrics : Metrics;
  trace : list Event;
  loaded : option VideoAnalysis }.

Definition with_db (d : gmap N VideoAnalysis) (w : World) : World :=
  {| db := d; files := files w; metrics := metrics w; trace := trace w;
     loaded := loaded w |}.

Definition with_files (f : gset string) (w : World) : World :=
  {| db := db w; files := f; metrics := metrics w; trace := trace w;
     loaded := loaded w |}.

Definition with_metrics (m : Metrics) (w : World) : World :=
  {| db := db w; files := files w; metrics := m; trace := trace w;
     loaded := loaded w |}.

Definition emit (ev : Event) (w : World) : World :=
  {| db := db w; files := files w; metrics := metrics w; trace := trace w ++ [ev];
     loaded := loaded w |}.

Definition with_loaded (o : option VideoAnalysis) (w : World) : World :=
  {| db := db w; files := files w; metrics := metrics w; trace := trace w;
     loaded := o |}.

(** ** A state and exception monad for Python code *)

Definition Py (A : Type) : Type := World -> Outcome A * World.

Definition ret {A} (a : A) : Py A := fun w => (Returned a, w).

Definition bind {A B} (m : Py A) (k : A -> Py B) : Py B :=
  fun w =>
    match m w with
    | (Returned a, w') => k a w'
    | (Raised e, w') => (Raised e, w')
    end.

Definition raise {A} (e : Exception) : Py A := fun w => (Raised e, w).

Definition modify (f : World -> World) : Py unit := fun w => (Returned tt, f w).

Definition gets {A} (f : World -> A) : Py A := fun w => (Returned (f w), w).

(** [try: body / except Exception as e: handler e] *)
Definition try_except {A} (body : Py A) (handler : Exception -> Py A) : Py A :=
  fun w =>
    match body w with
    | (Returned a, w') => (Returned a, w')
    | (Raised e, w') => handler e w'
    end.

(** [try: body / finally: final]: [final] always runs; an exception raised by
    [final] replaces the outcome of [body]. *)
Definition try_finally {A} (body : Py A) (final : Py unit) : Py A :=
  fun w =>
    match body w with
    | (o, w') =>
        match final w' with
        | (Returned _, w'') => (o, w'')
        | (Raised e, w'') => (Raised e, w'')
        end
    end.

Declare Scope py_scope.
Delimit Scope py_scope with py.
Notation "x <- m ;; k" := (bind m (fun x => k))
  (at level 100, m at next level, right associativity) : py_scope.
Notation "m ;; k" := (bind m (fun _ => k))
  (at level 100, right associativity) : py_scope.
Local Open Scope py_scope.

(** ** The collaborators *)

(** What each fallible call of one run does: [Some e] makes that call raise
    [e].  The fields are named after the call sites of
    [process_video_analysis]; [utcnow] is the reading of
    [datetime.utcnow()] at line 77.  The outcomes are independent of each
    other, which covers a session that refuses every call after a failed
    commit as well as a store that recovers at once.  Creating and closing a
    session, the Prometheus collectors and the logger do not raise. *)
Record Env := {
  query_raises : option Exception;             (* line 63 *)
  commit_processing_raises : option Exception; (* line 69 *)
  commit_completed_raises : option Exception;  (* line 79 *)
  requery_raises : option Exception;           (* line 92 *)
  commit_failed_raises : option Exception;     (* line 96 *)
  remove_raises : option Exception;            (* line 107 *)
  count_raises : option Exception;             (* lines 113-115 *)
  utcnow : Z }.

(** A call that raises when the environment says so. *)
Definition may_raise (fault : option Exception) : Py unit :=
  match fault with
  | Some e => raise e
  | None => ret tt
  end.

(** [db.query(VideoAnalysis).filter(VideoAnalysis.id == video_id).first()]:
    the row is looked up in the table.  When the session already holds the
    object of that row, the query hands back that same object with the
    attribute values it has in memory and does not refresh it from the row;
    the sessions have [autoflush] off and the code never rolls back, so
    changes that no commit has written stay on the object.  Otherwise the
    object is loaded from the row. *)
Definition query_first (fault : option Exception) (video_id : N) : Py (option VideoAnalysis) :=
  may_raise fault ;;
  row <- gets (fun w => db w !! video_id) ;;
  match row with
  | None => ret None
  | Some row =>
      held <- gets loaded ;;
      match held with
      | Some video_record => ret (Some video_record)
      | None => modify (with_loaded (Some row)) ;; ret (Some row)
      end
  end.

(** [video_record.x = v] for the record [video_id]: the assignment changes
    the object in memory.  An object that a commit has expired takes its
    other attributes from its row. *)
Definition setattr (video_id : N) (assign : VideoAnalysis -> VideoAnalysis) : Py unit :=
  modify (fun w =>
            match loaded w with
            | Some video_record => with_loaded (Some (assign video_record)) w
            | None => with_loaded (assign <$> db w !! video_id) w
            end).

(** [db.commit()] with [video_record] the only object that has changes: the
    object is written to its row and expired.  When the call raises, nothing
    is written and the object stays in memory as it is. *)
Definition commit (fault : option Exception) (video_id : N) : Py unit :=
  may_raise fault ;;
  modify (fun w =>
            match loaded w with
            | Some video_record =>
                emit (Commit video_id video_record)
                  (with_db (<[video_id := video_record]> (db w)) (with_loaded None w))
            | None => w
            end).

(** The filter [VideoAnalysis.status.in_([PENDING, PROCESSING])]. *)
Definition in_queue (r : VideoAnalysis) : bool :=
  bool_decide (status r = PENDING) || bool_decide (status r = PROCESSING).

Definition count_in_queue (d : gmap N VideoAnalysis) : Z :=
  Z.of_nat (size (filter (fun kv : N * VideoAnalysis => in_queue kv.2 = true) d)).

Definition query_count (fault : option Exception) : Py Z :=
  may_raise fault ;;
  gets (fun w => count_in_queue (db w)).

Definition os_path_exists (path : string) : Py bool :=
  gets (fun w => bool_decide (path ∈ files w)).

(** [os.remove(path)]: raises for a missing file and whenever the
    environment says so; otherwise the file is gone. *)
Definition os_remove (fault : option Exception) (path : string) : Py unit :=
  may_raise fault ;;
  present <- os_path_exists path ;;
  if present
  then modify (fun w => emit (Remove path) (with_files (files w ∖ {[path]}) w))
  else raise (OSError "No such file or directory").

Definition logger_error (msg : string) : Py unit := modify (emit (Log ERROR msg)).
Definition logger_info (msg : string) : Py unit := modify (emit (Log INFO msg)).

Definition increment_video_processed (l : string) : Py unit :=
  modify (fun w => with_metrics (increment_video_processed_m l (metrics w)) w).

Definition observe_processing_duration (duration_seconds : Q) : Py unit :=
  modify (fun w => with_metrics (observe_processing_duration_m duration_seconds (metrics w)) w).

Definition increment_video_errors : Py unit :=
  modify (fun w => with_metrics (increment_video_errors_m (metrics w)) w).

Definition set_videos_in_queue (count : Z) : Py unit :=
  modify (fun w => with_metrics (set_videos_in_queue_m count (metrics w)) w).

(** [db.close()] of a session the run opened itself: the session lets go of
    its objects. *)
Definition db_close : Py unit := modify (fun w => emit Close (with_loaded None w)).

(** The [analyzer] argument: any object with a [detect_motion] method, given
    by what that method does for a path. *)
Definition Analyzer := string -> Outcome (bool * Z).

Definition call_detect_motion (analyzer : Analyzer) (video_path : string) : Py (bool * Z) :=
  modify (fun w => emit (DetectMotion video_path (db w)) w) ;;
  match analyzer video_path with
  | Returned r => ret r
  | Raised e => raise e
  end.

(** A caller-supplied session; the model has one table, so the handle carries
    no data. *)
Definition Session := unit.

Definition str_bool (b : bool) : string := if b then "True" else "False".

(** ** app/main.py: process_video_analysis *)

(** Lines 62-85, the body of the [try].  The early [return] of line 66 ends
    the block. *)
Definition try_block (env : Env) (video_id : N) (video_path : string)
    (analyzer : Analyzer) : Py unit :=
  video_record <- query_first (query_raises env) video_id ;;
  match video_record with
  | None =>
      logger_error ("Видео запись не найдена: " +:+ pretty video_id)
  | Some _ =>
      setattr video_id (set_status PROCESSING) ;;
      commit (commit_processing_raises env) video_id ;;
      result <- call_detect_motion analyzer video_path ;;
      let '(has_motion, processing_duration_ms) := result in
      setattr video_id (set_has_motion has_motion) ;;
      setattr video_id (set_processing_duration_ms processing_duration_ms) ;;
      setattr video_id (set_analysis_time (utcnow env)) ;;
      setattr video_id (set_status COMPLETED) ;;
      commit (commit_completed_raises env) video_id ;;
      increment_video_processed (value COMPLETED) ;;
      observe_processing_duration (processing_duration_ms # 1000) ;;
      logger_info ("Видео " +:+ pretty video_id +:+ " успешно обработано: движение="
                   +:+ str_bool has_motion)
  end.

(** Lines 87-101, [except Exception as e].  The lookup of line 92 runs on
    the session of the [try]: after a commit that raised it gets the object
    that still carries the assignments of the [try]. *)
Definition except_block (env : Env) (video_id : N) (e : Exception) : Py unit :=
  logger_error ("Ошибка при обработке видео " +:+ pretty video_id +:+ ": " +:+ str e) ;;
  try_except
    (video_record <- query_first (requery_raises env) video_id ;;
     match video_record with
     | Some _ =>
         setattr video_id (set_status FAILED) ;;
         setattr video_id (set_error_message (str e)) ;;
         commit (commit_failed_raises env) video_id
     | None => ret tt
     end)
    (fun db_error =>
       logger_error ("Ошибка при обновлении статуса: " +:+ str db_error)) ;;
  increment_video_processed (value FAILED) ;;
  increment_video_errors.

(** Lines 103-121, the [finally] block. *)
Definition finally_block (env : Env) (video_path : string) (should_close : bool) : Py unit :=
  try_except
    (present <- os_path_exists video_path ;;
     if present then os_remove (remove_raises env) video_path else ret tt)
    (fun e => logger_error ("Ошибка при удалении временного файла: " +:+ str e)) ;;
  try_finally
    (try_except
       (pending_count <- query_count (count_raises env) ;;
        set_videos_in_queue pending_count)
       (fun e => logger_error ("Ошибка при обновлении метрики очереди: " +:+ str e)))
    (if should_close then db_close else ret tt).

(** Lines 54-59: the run closes the session only when it opened it. *)
Definition should_close (db_session : option Session) : bool :=
  match db_session with
  | Some _ => false
  | None => true
  end.

(** Lines 54-59: [db] is a new session or the caller's.  Either way it
    holds no change of the record that is not committed: a caller hands over
    a session whose objects are as their rows. *)
Definition new_session (w : World) : World := with_loaded None w.

Definition open_session (db_session : option Session) : Py unit := modify new_session.

(** Lines 61-101: the [try] with its [except] clause. *)
Definition job (env : Env) (video_id : N) (video_path : string) (analyzer : Analyzer) : Py unit :=
  try_except (try_block env video_id video_path analyzer) (except_block env video_id).

Definition process_video_analysis (env : Env)
    (video_id : N) (video_path : string) (filename db_url : string)
    (analyzer : Analyzer) (db_session : option Session) : Py unit :=
  open_session db_session ;;
  try_finally
    (job env video_id video_path analyzer)
    (finally_block env video_path (should_close db_session)).

(** ** app/services/video_analyzer.py *)

(** A decoded frame is a matrix of BGR pixels, a grayscale image a matrix of
    8-bit values.  All frames of one capture have one shape. *)
Definition Frame := list (list (Z * Z * Z)).
Definition Gray := list (list Z).

(** [cv2.VideoCapture(video_path)]: whether the file could be opened and the
    frames that successive [cap.read()] calls deliver before [ret] becomes
    false.  A file has finitely many frames. *)
Record VideoCapture := {
  isOpened : bool;
  frames : list Frame }.

(** [VideoAnalyzer.__init__] *)
Record VideoAnalyzer := {
  motion_threshold : Q;
  frame_skip : Z }.

(** [cv2.absdiff(prev_gray, gray)] *)
Definition absdiff (a b : Gray) : Gray :=
  zip_with (zip_with (fun x y => Z.abs (x - y))) a b.

(** [cv2.threshold(src, thresh, maxval, cv2.THRESH_BINARY)] *)
Definition threshold (src : Gray) (thresh maxval : Z) : Gray :=
  map (map (fun x => if thresh <? x then maxval else 0)) src.

(** [cv2.countNonZero(src)] *)
Definition countNonZero (src : Gray) : Z :=
  Z.of_nat (length (filter (fun x => x ≠ 0) (concat src))).

(** [src.shape[0]] and [src.shape[1]] *)
Definition shape0 (src : Gray) : Z := Z.of_nat (length src).
Definition shape1 (src : Gray) : Z := Z.of_nat (length (hd [] src)).

(** [int(x)] of a float: truncation towards zero. *)
Definition int (x : Q) : Z := Z.quot (Qnum x) (Zpos (Qden x)).

Section video_analyzer.

(** [cv2.cvtColor(frame, cv2.COLOR_BGR2GRAY)], a total function of OpenCV. *)
Variable cvtColor_BGR2GRAY : Frame -> Gray.

Variable self : VideoAnalyzer.

(** Lines 75-77: the share of changed pixels between two grayscale frames. *)
Definition motion_ratio (prev_gray gray : Gray) : Q :=
  let frame_diff := absdiff prev_gray gray in
  let thresh := threshold frame_diff 30 255 in
  let motion_pixels := countNonZero thresh in
  let total_pixels := shape0 thresh * shape1 thresh in
  if 0 <? total_pixels then Qmake motion_pixels (Z.to_pos total_pixels) else 0%Q.

(** The [while True] loop of lines 54-87 over the frames still to be read.
    It returns [(motion_detected, frames_analyzed)]; the modulo by
    [frame_skip + 1] raises when that is zero. *)
Fixpoint analyze_frames (rest : list Frame) (prev_gray : Gray)
    (frame_count frames_analyzed : Z) (motion_detected : bool) : Outcome (bool * Z) :=
  match rest with
  | [] => Returned (motion_detected, frames_analyzed)
  | frame :: rest =>
      let frame_count := frame_count + 1 in
      if frame_skip self + 1 =? 0
      then Raised (ZeroDivisionError "integer modulo by zero")
      else if negb (frame_count mod (frame_skip self + 1) =? 0)
      then analyze_frames rest prev_gray frame_count frames_analyzed motion_detected
      else
        let frames_analyzed := frames_analyzed + 1 in
        let gray := cvtColor_BGR2GRAY frame in
        if negb (Qle_bool (motion_ratio prev_gray gray) (motion_threshold self))
        then
          if 10 <=? frames_analyzed
          then Returned (true, frames_analyzed)
          else analyze_frames rest gray frame_count frames_analyzed true
        else analyze_frames rest gray frame_count frames_analyzed motion_detected
  end.

(** [detect_motion]: [cap] is what [cv2.VideoCapture(video_path)] gives,
    [start_time] and [end_time] the two readings of [time.time()].  The
    [except] clause of lines 100-102 logs and re-raises, which leaves the
    outcome as it is. *)
Definition detect_motion (cap : VideoCapture) (start_time end_time : Q)
    (video_path : string) : Outcome (bool * Z) :=
  if negb (isOpened cap)
  then Raised (ValueError ("Не удалось открыть видео файл: " +:+ video_path))
  else
    match frames cap with
    | [] => Raised (ValueError "Не удалось прочитать первый кадр видео")
    | prev_frame :: rest =>
        let prev_gray := cvtColor_BGR2GRAY prev_frame in
        match analyze_frames rest prev_gray 0 0 false with
        | Raised e => Raised e
        | Returned (motion_detected, frames_analyzed) =>
            let processing_time_ms := int ((end_time - start_time) * 1000)%Q in
            Returned (motion_detected, processing_time_ms)
        end
    end.

End video_analyzer.

(** ** Observations on a run *)

(** The events a computation added to the trace of [w]. *)
Definition new_events (w w' : World) : list Event :=
  drop (length (trace w)) (trace w').

(** The rows written for [video_id], in commit order. *)
Fixpoint commits (video_id : N) (evs : list Event) : list VideoAnalysis :=
  match evs with
  | [] => []
  | Commit k row :: evs =>
      if decide (k = video_id) then row :: commits video_id evs
      else commits video_id evs
  | _ :: evs => commits video_id evs
  end.

(** The values of [status] that a reader of the table can see over time: the
    one stored before the run, then the committed ones. *)
Definition status_history (video_id : N) (before : VideoAnalysis) (evs : list Event) :
    list VideoStatus :=
  status before :: map status (commits video_id evs).

(** The table after the commits of [evs]. *)
Definition replay (d : gmap N VideoAnalysis) (evs : list Event) : gmap N VideoAnalysis :=
  fold_left (fun d ev => match ev with Commit k row => <[k := row]> d | _ => d end) evs d.

Definition terminal (s : VideoStatus) : bool :=
  match s with
  | COMPLETED | FAILED => true
  | PENDING | PROCESSING => false
  end.

(** The two groups of result columns of the data model. *)
Definition result_set (r : VideoAnalysis) : bool :=
  bool_decide (is_Some (has_motion r)) && bool_decide (is_Some (processing_duration_ms r)).

Definition error_set (r : VideoAnalysis) : bool :=
  bool_decide (is_Some (error_message r)).

(** A row that no run has finished yet: not terminal, no result column
    filled.  [new_video_analysis] creates such rows. *)
Definition unprocessed (r : VideoAnalysis) : Prop :=
  terminal (status r) = false /\ has_motion r = None /\
  processing_duration_ms r = None /\ error_message r = None /\
  analysis_time r = None.

(** Events that neither write a row nor call the detector. *)
Definition housekeeping (ev : Event) : Prop :=
  match ev with
  | Commit _ _ | DetectMotion _ _ => False
  | _ => True
  end.

(** A computation that returns on every world. *)
Definition never_raises {A} (m : Py A) : Prop :=
  forall w, exists a, (m w).1 = Returned a.

(** ** The properties of the specification *)

(** Exactly one of the two groups of result columns is filled. *)
Definition exclusive (r : VideoAnalysis) : Prop :=
  xorb (result_set r) (error_set r) = true.

(** A status history that follows the lifecycle: a subsequence of
    pending, processing, completed or of pending, processing, failed. *)
Definition lifecycle (h : list VideoStatus) : Prop :=
  sublist h [PENDING; PROCESSING; COMPLETED] \/ sublist h [PENDING; PROCESSING; FAILED].

(** A history that reaches a terminal status also shows processing. *)
Definition never_skips_processing (h : list VideoStatus) : Prop :=
  COMPLETED ∈ h \/ FAILED ∈ h -> PROCESSING ∈ h.

(** Whether the detector was called. *)
Definition is_detect (ev : Event) : bool :=
  match ev with
  | DetectMotion _ _ => true
  | _ => false
  end.

Definition detector_called (evs : list Event) : bool := existsb is_detect evs.

(** ** Sample inputs *)

Definition no_metrics : Metrics :=
  {| video_processed_total := ∅;
     video_processing_duration_seconds := [];
     video_errors_total := 0;
     videos_in_queue := 7 |}.

(** One freshly uploaded record and its artifact. *)
Definition sample_world : World :=
  {| db := {[ 1%N := new_video_analysis "a.mp4" 100 ]};
     files := {[ "/tmp/1_a.mp4" ]};
     metrics := no_metrics;
     trace := [];
     loaded := None |}.

(** No collaborator fails. *)
Definition calm : Env :=
  {| query_raises := None; commit_processing_raises := None;
     commit_completed_raises := None; requery_raises := None;
     commit_failed_raises := None; remove_raises := None;
     count_raises := None; utcnow := 200 |}.

Definition with_commit_completed_raises (e : Exception) (env : Env) : Env :=
  {| query_raises := query_raises env;
     commit_processing_raises := commit_processing_raises env;
     commit_completed_raises := Some e;
     requery_raises := requery_raises env;
     commit_failed_raises := commit_failed_raises env;
     remove_raises := remove_raises env;
     count_raises := count_raises env; utcnow := utcnow env |}.

Definition with_query_raises (e : Exception) (env : Env) : Env :=
  {| query_raises := Some e;
     commit_processing_raises := commit_processing_raises env;
     commit_completed_raises := commit_completed_raises env;
     requery_raises := requery_raises env;
     commit_failed_raises := commit_failed_raises env;
     remove_raises := remove_raises env;
     count_raises := count_raises env; utcnow := utcnow env |}.

Definition with_requery_raises (e : Exception) (env : Env) : Env :=
  {| query_raises := query_raises env;
     commit_processing_raises := commit_processing_raises env;
     commit_completed_raises := commit_completed_raises env;
     requery_raises := Some e;
     commit_failed_raises := commit_failed_raises env;
     remove_raises := remove_raises env;
     count_raises := count_raises env; utcnow := utcnow env |}.

Definition with_remove_raises (e : Exception) (env : Env) : Env :=
  {| query_raises := query_raises env;
     commit_processing_raises := commit_processing_raises env;
     commit_completed_raises := commit_completed_raises env;
     requery_raises := requery_raises env;
     commit_failed_raises := commit_failed_raises env;
     remove_raises := Some e;
     count_raises := count_raises env; utcnow := utcnow env |}.

Definition with_count_raises (e : Exception) (env : Env) : Env :=
  {| query_raises := query_raises env;
     commit_processing_raises := commit_processing_raises env;
     commit_completed_raises := commit_completed_raises env;
     requery_raises := requery_raises env;
     commit_failed_raises := commit_failed_raises env;
     remove_raises := remove_raises env;
     count_raises := Some e; utcnow := utcnow env |}.

Definition with_utcnow (t : Z) (env : Env) : Env :=
  {| query_raises := query_raises env;
     commit_processing_raises := commit_processing_raises env;
     commit_completed_raises := commit_completed_raises env;
     requery_raises := requery_raises env;
     commit_failed_raises := commit_failed_raises env;
     remove_raises := remove_raises env;
     count_raises := count_raises env; utcnow := t |}.

(** A detector that finds motion in 1500 ms, and one that cannot open the
    file. *)
Definition finds_motion : Analyzer := fun _ => Returned (true, 1500).

Definition cannot_open : Analyzer :=
  fun video_path => Raised (ValueError ("Не удалось открыть видео файл: " +:+ video_path)).

(** The sample run: record 1 and its artifact, with a caller's session. *)
Definition sample_run (env : Env) (analyzer : Analyzer) : World :=
  (process_video_analysis env 1 "/tmp/1_a.mp4" "a.mp4" "sqlite://" analyzer (Some tt)
     sample_world).2.

(** Sample inputs of the detector: a conversion to grayscale (the mean of the
    three channels), a black and a white 2x2 frame, the production
    configuration of [get_video_analyzer] and one whose [frame_skip] is -1. *)
Definition mean_gray (frame : Frame) : Gray :=
  map (map (fun px : Z * Z * Z => (px.1.1 + px.1.2 + px.2) / 3)) frame.

Definition black : Frame := [[(0, 0, 0); (0, 0, 0)]; [(0, 0, 0); (0, 0, 0)]].
Definition white : Frame :=
  [[(255, 255, 255); (255, 255, 255)]; [(255, 255, 255); (255, 255, 255)]].

Definition production : VideoAnalyzer := {| motion_threshold := 1 # 100; frame_skip := 5 |}.
Definition skip_minus_one : VideoAnalyzer := {| motion_threshold := 1 # 100; frame_skip := -1 |}.

(** The [VideoAnalyzer] object as the [analyzer] argument of a run:
    [captures] tells what [cv2.VideoCapture] finds at each path. *)
Definition video_analyzer (cvt : Frame -> Gray) (self : VideoAnalyzer)
    (captures : string -> VideoCapture) (start_time end_time : Q) : Analyzer :=
  fun video_path => detect_motion cvt self (captures video_path) start_time end_time video_path.

(** A clip in which a white frame follows six black ones, and a file of zero
    bytes, which OpenCV cannot open. *)
Definition moving_clip : VideoCapture :=
  {| isOpened := true; frames := [black; black; black; black; black; black; white] |}.

Definition zero_bytes : VideoCapture := {| isOpened := false; frames := [] |}.

(** ** Further observations on a run *)

(** The lookups and commits of the job: none of them raises. *)
Definition db_calm (env : Env) : Prop :=
  query_raises env = None /\ commit_processing_raises env = None /\
  commit_completed_raises env = None /\ requery_raises env = None /\
  commit_failed_raises env = None.

(** The detector returned a result and the commit of line 79, which should
    store it, raised. *)
Definition result_lost (env : Env) (analyzer : Analyzer) (video_path : string) : Prop :=
  query_raises env = None /\ commit_processing_raises env = None
  /\ (exists result, analyzer video_path = Returned result)
  /\ is_Some (commit_completed_raises env).

(** A record that an earlier run has left failed. *)
Definition failed_before : World :=
  with_db {[ 1%N := set_error_message "Не удалось открыть видео файл: /tmp/1_a.mp4"
                      (set_status FAILED (new_video_analysis "a.mp4" 100)) ]}
    sample_world.

(** The write of the except clause does not go through. *)
Definition failed_write_raises (env : Env) : Prop :=
  is_Some (requery_raises env) \/ is_Some (commit_failed_raises env).

Definition is_close (ev : Event) : bool :=
  match ev with
  | Close => true
  | _ => false
  end.

Definition bool_to_Z (b : bool) : Z := if b then 1 else 0.

(** ** Observations on the detector *)

(** The frames of [rest] that the loop converts and compares, when it skips
    [period] frames between two of them and still has [gap] frames to skip
    before the next one. *)
Fixpoint sampled (period gap : nat) (rest : list Frame) : list Frame :=
  match rest with
  | [] => []
  | frame :: rest =>
      match gap with
      | O => frame :: sampled period period rest
      | S gap => sampled period gap rest
      end
  end.

(** The test of line 81 for one pair of grayscale images. *)
Definition exceeds (self : VideoAnalyzer) (prev_gray gray : Gray) : bool :=
  negb (Qle_bool (motion_ratio prev_gray gray) (motion_threshold self)).

(** Whether some frame of [fs] exceeds the threshold against the one compared
    before it, starting from [prev_gray]. *)
Fixpoint motion_among (cvt : Frame -> Gray) (self : VideoAnalyzer)
    (prev_gray : Gray) (fs : list Frame) : bool :=
  match fs with
  | [] => false
  | frame :: fs =>
      exceeds self prev_gray (cvt frame) || motion_among cvt self (cvt frame) fs
  end.

(** An image of [h] rows of [w] pixels. *)
Definition shaped (h w : nat) (g : Gray) : Prop :=
  length g = h /\ Forall (fun row => length row = w) g.

(** ** app/main.py: is_video_file *)

(** File names are ASCII text, on which [str.lower] maps the letters A-Z. *)
Definition lower_char (c : ascii) : ascii :=
  let n := nat_of_ascii c in
  if (65 <=? n)%nat && (n <=? 90)%nat then ascii_of_nat (n + 32) else c.

Fixpoint lower (s : string) : string :=
  match s with
  | EmptyString => EmptyString
  | String c s => String (lower_char c) (lower s)
  end.

(** [p.rfind(c)] for a one-character [c]: the highest index of [c] in [p],
    or -1. *)
Fixpoint rfind (p : list ascii) (c : ascii) : Z :=
  match p with
  | [] => -1
  | a :: p =>
      let i := rfind p c in
      if 0 <=? i then i + 1 else if bool_decide (a = c) then 0 else -1
  end.

(** The loop of [os.path.splitext] that skips leading dots: it looks at the
    [steps] characters from [filenameIndex] on and splits at the first one
    that is not a dot. *)
Fixpoint has_stem (p : list ascii) (filenameIndex steps : nat) : bool :=
  match steps with
  | O => false
  | S steps =>
      if bool_decide (p !! filenameIndex = Some "."%char)
      then has_stem p (S filenameIndex) steps
      else true
  end.

(** [os.path.splitext(p)] of [posixpath]: the extension starts at the last
    dot, provided that dot follows the last slash and a character other than
    a dot stands between them. *)
Definition splitext (p : string) : string * string :=
  let l := list_ascii_of_string p in
  let sepIndex := rfind l "/" in
  let dotIndex := rfind l "." in
  if (sepIndex <? dotIndex)
     && has_stem l (Z.to_nat (sepIndex + 1)) (Z.to_nat (dotIndex - (sepIndex + 1)))
  then (string_of_list_ascii (take (Z.to_nat dotIndex) l),
        string_of_list_ascii (drop (Z.to_nat dotIndex) l))
  else (p, EmptyString).

Definition ALLOWED_VIDEO_EXTENSIONS : gset string :=
  {[ ".mp4"; ".avi"; ".mov"; ".mkv"; ".webm"; ".flv" ]}.

Definition is_video_file (filename : string) : bool :=
  let '(_, ext) := splitext (lower filename) in
  bool_decide (ext ∈ ALLOWED_VIDEO_EXTENSIONS).

(** ** app/schemas.py *)

Module AnalyzeResponse.
Record t := {
  video_id : N;
  status : string;
  message : string }.
End AnalyzeResponse.

Module VideoAnalysisResponse.
Record t := {
  id : N;
  filename : string;
  upload_time : Z;
  analysis_time : option Z;
  has_motion : option bool;
  processing_duration_ms : option Z;
  status : VideoStatus;
  error_message : option string }.
End VideoAnalysisResponse.

(** [VideoAnalysisResponse.model_validate(video_record)]: with
    [from_attributes] every field is read from the attribute of its name. *)
Definition model_validate (video_id : N) (video_record : VideoAnalysis) :
    VideoAnalysisResponse.t :=
  {| VideoAnalysisResponse.id := video_id;
     VideoAnalysisResponse.filename := filename video_record;
     VideoAnalysisResponse.upload_time := upload_time video_record;
     VideoAnalysisResponse.analysis_time := analysis_time video_record;
     VideoAnalysisResponse.has_motion := has_motion video_record;
     VideoAnalysisResponse.processing_duration_ms := processing_duration_ms video_record;
     VideoAnalysisResponse.status := status video_record;
     VideoAnalysisResponse.error_message := error_message video_record |}.

(** ** app/main.py: the endpoints *)

(** What a handler hands to FastAPI: the value it returns, an
    [HTTPException], or any other exception, which the framework turns into
    a plain 500. *)
Inductive Reply (A : Type) :=
| Responded (a : A)
| HTTPException (status_code : Z) (detail : string)
| Unhandled (e : Exception).
Arguments Responded {A} a.
Arguments HTTPException {A} status_code detail.
Arguments Unhandled {A} e.

(** A call registered with [background_tasks.add_task]: the arguments of
    [process_video_analysis], which FastAPI calls after a response that the
    handler returned. *)
Record Task := {
  task_video_id : N;
  task_video_path : string;
  task_filename : string;
  task_db_url : string;
  task_analyzer : Analyzer }.

(** The task runs without a caller's session. *)
Definition run_task (env : Env) (task : Task) : Py unit :=
  process_video_analysis env (task_video_id task) (task_video_path task)
    (task_filename task) (task_db_url task) (task_analyzer task) None.

(** What the collaborators of one call of [analyze_video] do.  [uuid4] and
    [now] are the column defaults of models.py lines 20 and 22, [set_order]
    the order in which the set of extensions is iterated. *)
Record UploadEnv := {
  uuid4 : N;
  now : Z;
  gettempdir : string;                       (* line 149 *)
  database_url : string;                     (* line 159 *)
  set_order : list string;                   (* line 136 *)
  insert_raises : option Exception;          (* line 145 *)
  refresh_raises : option Exception;         (* line 146 *)
  open_raises : option Exception;            (* line 153 *)
  write_raises : option Exception;           (* lines 154-155 *)
  queue_count_raises : option Exception;     (* lines 172-174 *)
  delete_raises : option Exception;          (* lines 185-186 *)
  unlink_raises : option Exception }.        (* line 190 *)

Definition startswith (s pre : string) : bool := String.prefix pre s.

Definition endswith (s suf : string) : bool :=
  String.prefix (String.rev suf) (String.rev s).

(** [os.path.join(a, b)] of [posixpath]. *)
Definition os_path_join (a b : string) : string :=
  if startswith b "/" then b
  else if bool_decide (a = EmptyString) || endswith a "/" then a +:+ b
  else a +:+ "/" +:+ b.

(** Line 150. *)
Definition artifact_path (temp_dir : string) (video_id : N) (name : string) : string :=
  os_path_join temp_dir (pretty video_id +:+ "_" +:+ name).

(** Lines 140-146: [db.add], [db.commit] and [db.refresh].  The INSERT
    raises when the environment says so and for a primary key that is
    taken. *)
Definition create_record (env : UploadEnv) (name : string) : Py N :=
  let video_id := uuid4 env in
  may_raise (insert_raises env) ;;
  taken <- gets (fun w => bool_decide (is_Some (db w !! video_id))) ;;
  (if taken : bool then raise (SQLAlchemyError "IntegrityError") else ret tt) ;;
  modify (fun w => emit (Commit video_id (new_video_analysis name (now env)))
                     (with_db (<[video_id := new_video_analysis name (now env)]> (db w)) w)) ;;
  may_raise (refresh_raises env) ;;
  ret video_id.

(** Lines 153-181, the body of the [try]: [open] creates the file before
    anything is written. *)
Definition save_upload (env : UploadEnv) (video_id : N) (video_path name : string)
    (analyzer : Analyzer) : Py (AnalyzeResponse.t * Task) :=
  may_raise (open_raises env) ;;
  modify (fun w => with_files (files w ∪ {[video_path]}) w) ;;
  may_raise (write_raises env) ;;
  let db_url := database_url env in
  let task := {| task_video_id := video_id; task_video_path := video_path;
                 task_filename := name; task_db_url := db_url;
                 task_analyzer := analyzer |} in
  pending_count <- query_count (queue_count_raises env) ;;
  set_videos_in_queue pending_count ;;
  ret ({| AnalyzeResponse.video_id := video_id;
          AnalyzeResponse.status := value PENDING;
          AnalyzeResponse.message := "Видео принято в обработку" |}, task).

(** Lines 184-192 of the [except] clause, up to the [raise]. *)
Definition discard_upload (env : UploadEnv) (video_id : N) (video_path : string)
    (e : Exception) : Py unit :=
  may_raise (delete_raises env) ;;
  modify (fun w => with_db (delete video_id (db w)) w) ;;
  present <- os_path_exists video_path ;;
  (if present then os_remove (unlink_raises env) video_path else ret tt) ;;
  logger_error ("Ошибка при сохранении видео: " +:+ str e).

(** [analyze_video] for an upload called [name].  One request is handled at
    a time. *)
Definition analyze_video (env : UploadEnv) (name : string) (analyzer : Analyzer)
    (w : World) : Reply (AnalyzeResponse.t * Task) * World :=
  if negb (is_video_file name)
  then (HTTPException 400
          ("Неподдерживаемый формат файла. Разрешенные форматы: "
           +:+ String.concat ", " (set_order env)), w)
  else
    match create_record env name w with
    | (Raised e, w) => (Unhandled e, w)
    | (Returned video_id, w) =>
        let video_path := artifact_path (gettempdir env) video_id name in
        match save_upload env video_id video_path name analyzer w with
        | (Returned response, w) => (Responded response, w)
        | (Raised e, w) =>
            match discard_upload env video_id video_path e w with
            | (Returned _, w) =>
                (HTTPException 500 ("Ошибка при обработке файла: " +:+ str e), w)
            | (Raised e', w) => (Unhandled e', w)
            end
        end
    end.

(** [get_result].  The request has a session of its own ([get_db]), which
    is closed after the response: the lookup reads the row, and the world is
    left as it was. *)
Definition get_result (fault : option Exception) (video_id : N) (w : World) :
    Reply VideoAnalysisResponse.t * World :=
  match query_first fault video_id (new_session w) with
  | (Raised e, _) => (Unhandled e, w)
  | (Returned None, _) => (HTTPException 404 "Видео не найдено", w)
  | (Returned (Some video_record), _) =>
      (Responded (model_validate video_id video_record), w)
  end.

(** ** Observations on the endpoints *)

(** The last component of [stem] has a character other than a dot. *)
Definition named (stem : string) : Prop :=
  exists dir c base,
    stem = dir +:+ String c base /\ c ≠ "."%char /\ c ≠ "/"%char
    /\ "/"%char ∉ list_ascii_of_string base.

(** No collaborator of an upload fails. *)
Definition upload_calm : UploadEnv :=
  {| uuid4 := 2; now := 150; gettempdir := "/tmp"; database_url := "sqlite://";
     set_order := [".mp4"; ".avi"; ".mov"; ".mkv"; ".webm"; ".flv"];
     insert_raises := None; refresh_raises := None; open_raises := None;
     write_raises := None; queue_count_raises := None; delete_raises := None;
     unlink_raises := None |}.

Definition with_open_raises (e : Exception) (env : UploadEnv) : UploadEnv :=
  {| uuid4 := uuid4 env; now := now env; gettempdir := gettempdir env;
     database_url := database_url env; set_order := set_order env;
     insert_raises := insert_raises env; refresh_raises := refresh_raises env;
     open_raises := Some e; write_raises := write_raises env;
     queue_count_raises := queue_count_raises env; delete_raises := delete_raises env;
     unlink_raises := unlink_raises env |}.

Definition with_delete_raises (e : Exception) (env : UploadEnv) : UploadEnv :=
  {| uuid4 := uuid4 env; now := now env; gettempdir := gettempdir env;
     database_url := database_url env; set_order := set_order env;
     insert_raises := insert_raises env; refresh_raises := refresh_raises env;
     open_raises := open_raises env; write_raises := write_raises env;
     queue_count_raises := queue_count_raises env; delete_raises := Some e;
     unlink_raises := unlink_raises env |}.

(** The upload of a second file into the sample world. *)
Definition sample_upload (env : UploadEnv) : Reply (AnalyzeResponse.t * Task) * World :=
  analyze_video env "b.mp4" finds_motion sample_world.

Definition sample_response : AnalyzeResponse.t :=
  {| AnalyzeResponse.video_id := 2; AnalyzeResponse.status := "pending";
     AnalyzeResponse.message := "Видео принято в обработку" |}.

Definition sample_task : Task :=
  {| task_video_id := 2; task_video_path := "/tmp/2_b.mp4"; task_filename := "b.mp4";
     task_db_url := "sqlite://"; task_analyzer := finds_motion |}.

(** ** The monad's control operators *)

Ltac py_unfold :=
  cbv beta iota delta [try_finally try_except bind query_first commit query_count
    os_remove os_path_exists call_detect_motion may_raise gets modify
    raise ret logger_error logger_info increment_video_processed
    observe_processing_duration increment_video_errors set_videos_in_queue
    db_close setattr open_session] in *.

Lemma never_raises_ret {A} (a : A) : never_raises (ret a).
Proof. intros w. by exists a. Qed.

Lemma never_raises_modify f : never_raises (modify f).
Proof. intros w. by exists tt. Qed.

Lemma never_raises_gets {A} (f : World -> A) : never_raises (gets f).
Proof. intros w. by exists (f w). Qed.

Lemma never_raises_bind {A B} (m : Py A) (k : A -> Py B) :
  never_raises m -> (forall a, never_raises (k a)) -> never_raises (bind m k).
Proof.
  intros Hm Hk w. unfold bind.
  destruct (Hm w) as [a Ha]. destruct (m w) as [o w']; simpl in Ha; subst o.
  apply Hk.
Qed.

Lemma never_raises_try_except {A} (body : Py A) handler :
  (forall e, never_raises (handler e)) -> never_raises (try_except body handler).
Proof.
  intros Hh w. unfold try_except.
  destruct (body w) as [[a|e] w']; [by exists a | apply Hh].
Qed.

Lemma never_raises_try_finally {A} (body : Py A) final :
  never_raises body -> never_raises final -> never_raises (try_finally body final).
Proof.
  intros Hb Hf w. unfold try_finally.
  destruct (Hb w) as [a Ha]. destruct (body w) as [o w']; simpl in Ha; subst o.
  destruct (Hf w') as [u Hu]. destruct (final w') as [o w'']; simpl in Hu; subst o.
  by exists a.
Qed.

Create HintDb py.
#[local] Hint Resolve never_raises_ret never_raises_modify never_raises_gets : py.
#[local] Hint Resolve never_raises_bind never_raises_try_except never_raises_try_finally : py.

Lemma never_raises_logger_error msg : never_raises (logger_error msg).
Proof. apply never_raises_modify. Qed.

Lemma never_raises_increment_video_processed l : never_raises (increment_video_processed l).
Proof. apply never_raises_modify. Qed.

Lemma never_raises_increment_video_errors : never_raises increment_video_errors.
Proof. apply never_raises_modify. Qed.

#[local] Hint Resolve never_raises_logger_error never_raises_increment_video_processed
  never_raises_increment_video_errors : py.

Lemma never_raises_except_block env video_id e :
  never_raises (except_block env video_id e).
Proof. unfold except_block. auto 10 with py. Qed.

Lemma never_raises_finally_block env video_path should_close :
  never_raises (finally_block env video_path should_close).
Proof.
  unfold finally_block.
  apply never_raises_bind; [auto with py | intros _].
  apply never_raises_try_finally; [auto with py |].
  destruct should_close; [apply never_raises_modify | apply never_raises_ret].
Qed.

(** ** The finally block *)

Ltac finally_cases env should_close :=
  unfold finally_block; py_unfold;
  destruct (remove_raises env), (count_raises env), should_close; simpl;
  repeat case_bool_decide; simpl.

Lemma finally_block_db env video_path should_close w :
  db (finally_block env video_path should_close w).2 = db w.
Proof. finally_cases env should_close; reflexivity. Qed.

Lemma finally_block_files env video_path should_close w :
  files (finally_block env video_path should_close w).2 =
  match remove_raises env with
  | None => files w ∖ {[video_path]}
  | Some _ => files w
  end.
Proof.
  finally_cases env should_close; try reflexivity;
    symmetry; apply difference_disjoint_L, disjoint_singleton_r; assumption.
Qed.

Lemma finally_block_metrics env video_path should_close w :
  metrics (finally_block env video_path should_close w).2 =
  match count_raises env with
  | None => set_videos_in_queue_m (count_in_queue (db w)) (metrics w)
  | Some _ => metrics w
  end.
Proof. finally_cases env should_close; reflexivity. Qed.

Lemma finally_block_trace env video_path should_close w :
  exists evs, trace (finally_block env video_path should_close w).2 = trace w ++ evs
              /\ Forall housekeeping evs.
Proof.
  finally_cases env should_close; rewrite <- ?app_assoc; simpl;
    (eexists; split; [try reflexivity; symmetry; apply app_nil_r |]);
    repeat constructor.
Qed.

(** ** Exceptions never reach the caller *)

Lemma never_raises_process_video_analysis env video_id video_path filename db_url
    analyzer db_session :
  never_raises
    (process_video_analysis env video_id video_path filename db_url analyzer db_session).
Proof.
  unfold process_video_analysis, open_session, job.
  apply never_raises_bind; [apply never_raises_modify | intros _].
  apply never_raises_try_finally.
  - apply never_raises_try_except, never_raises_except_block.
  - apply never_raises_finally_block.
Qed.

(** C4: whatever the store holds, whatever the detector does and whichever of
    the lookups, the three commits, the file removal and the queue count
    raise, [process_video_analysis] returns [None] to its caller and raises
    nothing. *)
Theorem process_video_analysis_returns env video_id video_path filename db_url
    analyzer db_session w :
  (process_video_analysis env video_id video_path filename db_url analyzer db_session w).1
  = Returned tt.
Proof.
  destruct (never_raises_process_video_analysis env video_id video_path filename db_url
              analyzer db_session w) as [[] Hw].
  exact Hw.
Qed.

(** A run is its job followed by the finally block, and it returns. *)
Lemma run_split env video_id video_path filename db_url analyzer db_session w :
  process_video_analysis env video_id video_path filename db_url analyzer db_session w =
  (Returned tt,
   (finally_block env video_path (should_close db_session)
      (job env video_id video_path analyzer (new_session w)).2).2).
Proof.
  destruct (never_raises_process_video_analysis env video_id video_path filename db_url
              analyzer db_session w) as [[] H].
  unfold process_video_analysis, open_session, bind, modify, try_finally in *.
  destruct (job _ _ _ _ (new_session w)) as [o w1]. simpl.
  destruct (finally_block _ _ _ w1) as [[[]|e] w2]; simpl in *; congruence.
Qed.
(** ** Traces *)

Lemma new_events_app w w' evs : trace w' = trace w ++ evs -> new_events w w' = evs.
Proof. intros H. unfold new_events. rewrite H. apply drop_app_length. Qed.

Lemma commits_app video_id evs1 evs2 :
  commits video_id (evs1 ++ evs2) = commits video_id evs1 ++ commits video_id evs2.
Proof.
  induction evs1 as [|ev evs1 IH]; simpl; [reflexivity |].
  destruct ev; try apply IH. case_decide; simpl; by rewrite IH.
Qed.

Lemma commits_housekeeping video_id evs :
  Forall housekeeping evs -> commits video_id evs = [].
Proof.
  induction 1 as [|ev evs Hev _ IH]; simpl; [reflexivity |].
  destruct ev; simpl in Hev; try contradiction; exact IH.
Qed.

Lemma detector_called_app evs1 evs2 :
  detector_called (evs1 ++ evs2) = detector_called evs1 || detector_called evs2.
Proof. apply existsb_app. Qed.

Lemma detector_called_housekeeping evs :
  Forall housekeeping evs -> detector_called evs = false.
Proof.
  induction 1 as [|ev evs Hev _ IH]; simpl; [reflexivity |].
  destruct ev; simpl in Hev; try contradiction; exact IH.
Qed.

(** ** The job: case analysis over its paths *)

Ltac job_step w video_id :=
  match goal with
  | H : db w !! video_id = _ |- context [db w !! video_id] => rewrite H
  | |- context [<[video_id := _]> _ !! video_id] => rewrite lookup_insert_eq
  | |- context [match ?x with Some _ => _ | None => _ end] => destruct x eqn:?
  | |- context [match ?x with Returned _ => _ | Raised _ => _ end] =>
      destruct x as [[? ?]|?] eqn:?
  end; simpl.

Ltac job_cases w video_id :=
  unfold job, try_block, except_block; py_unfold; simpl;
  repeat job_step w video_id.

Ltac trace_norm :=
  unfold new_events; simpl; rewrite <- ?app_assoc; rewrite ?drop_app_length; simpl.

Lemma job_files env video_id video_path analyzer w :
  files (job env video_id video_path analyzer (new_session w)).2 = files w.
Proof. job_cases w video_id; reflexivity. Qed.

Lemma job_videos_in_queue env video_id video_path analyzer w :
  videos_in_queue (metrics (job env video_id video_path analyzer (new_session w)).2)
  = videos_in_queue (metrics w).
Proof. job_cases w video_id; reflexivity. Qed.

Lemma job_trace env video_id video_path analyzer w :
  trace (job env video_id video_path analyzer (new_session w)).2
  = trace w ++ new_events w (job env video_id video_path analyzer (new_session w)).2.
Proof. job_cases w video_id; trace_norm; reflexivity. Qed.

Lemma job_db_other env video_id video_path analyzer w k :
  k ≠ video_id -> db (job env video_id video_path analyzer (new_session w)).2 !! k = db w !! k.
Proof.
  intros Hk. job_cases w video_id; rewrite ?lookup_insert_ne by done; reflexivity.
Qed.

Lemma job_replay env video_id video_path analyzer w :
  db (job env video_id video_path analyzer (new_session w)).2
  = replay (db w) (new_events w (job env video_id video_path analyzer (new_session w)).2).
Proof. job_cases w video_id; trace_norm; reflexivity. Qed.

(** The events of a run are those of its job and then housekeeping. *)
Lemma run_events env video_id video_path filename db_url analyzer db_session w :
  exists evs,
    new_events w
      (process_video_analysis env video_id video_path filename db_url analyzer db_session w).2
    = new_events w (job env video_id video_path analyzer (new_session w)).2 ++ evs
    /\ Forall housekeeping evs.
Proof.
  rewrite run_split. simpl.
  destruct (finally_block_trace env video_path (should_close db_session)
              (job env video_id video_path analyzer (new_session w)).2) as (evs & Ht & Hh).
  exists evs. split; [| exact Hh].
  apply new_events_app. rewrite Ht, job_trace, <- app_assoc. reflexivity.
Qed.

Lemma run_db env video_id video_path filename db_url analyzer db_session w :
  db (process_video_analysis env video_id video_path filename db_url analyzer db_session w).2
  = db (job env video_id video_path analyzer (new_session w)).2.
Proof. rewrite run_split. simpl. apply finally_block_db. Qed.


Lemma replay_app d evs1 evs2 : replay d (evs1 ++ evs2) = replay (replay d evs1) evs2.
Proof. apply fold_left_app. Qed.

Lemma replay_housekeeping d evs : Forall housekeeping evs -> replay d evs = d.
Proof.
  intros Hh. revert d. induction Hh as [|ev evs Hev _ IH]; intros d; [reflexivity |].
  destruct ev; simpl in Hev; try contradiction; apply IH.
Qed.

(** The store after a run is the store before it with the run's commits
    applied in order: the trace records every write. *)
Lemma run_replay env video_id video_path filename db_url analyzer db_session w :
  let w' := (process_video_analysis env video_id video_path filename db_url
               analyzer db_session w).2 in
  db w' = replay (db w) (new_events w w').
Proof.
  simpl.
  destruct (run_events env video_id video_path filename db_url analyzer db_session w)
    as (evh & -> & Hh).
  rewrite run_db, replay_app, (replay_housekeeping _ evh Hh). apply job_replay.
Qed.

(** ** Status transitions *)

(** The histories one run can produce for a record that was pending. *)
Lemma job_status_history env video_id video_path analyzer w r :
  db w !! video_id = Some r -> status r = PENDING ->
  let h := status_history video_id r (new_events w (job env video_id video_path analyzer (new_session w)).2) in
  h = [PENDING] \/ h = [PENDING; PROCESSING] \/ h = [PENDING; PROCESSING; COMPLETED]
  \/ h = [PENDING; PROCESSING; FAILED]
  \/ (h = [PENDING; FAILED]
      /\ (is_Some (query_raises env) \/ is_Some (commit_processing_raises env))).
Proof.
  intros Hr Hs. unfold status_history. rewrite Hs.
  job_cases w video_id; trace_norm; rewrite ?decide_True by done; simpl; eauto 10.
Qed.

Lemma run_status_history env video_id video_path filename db_url analyzer db_session w r :
  status_history video_id r
    (new_events w
       (process_video_analysis env video_id video_path filename db_url analyzer db_session w).2)
  = status_history video_id r (new_events w (job env video_id video_path analyzer (new_session w)).2).
Proof.
  destruct (run_events env video_id video_path filename db_url analyzer db_session w)
    as (evs & -> & Hh).
  unfold status_history.
  by rewrite commits_app, (commits_housekeeping _ evs Hh), app_nil_r.
Qed.

Lemma lifecycle_cases h :
  h = [PENDING] \/ h = [PENDING; PROCESSING] \/ h = [PENDING; PROCESSING; COMPLETED]
  \/ h = [PENDING; PROCESSING; FAILED] \/ h = [PENDING; FAILED] ->
  lifecycle h.
Proof.
  unfold lifecycle.
  intros [-> | [-> | [-> | [-> | ->]]]];
    [left | left | left | right | right];
    repeat first [apply sublist_nil | apply sublist_skip | apply sublist_cons].
Qed.

Lemma elem_of_list_cases {A} (x : A) (l : list A) : x ∈ l <-> In x l.
Proof. apply list_elem_of_In. Qed.

Ltac in_list := rewrite !elem_of_list_cases; simpl; intuition (try discriminate; auto).

(** C1, as the code has it: a record that is pending when the run starts
    shows a subsequence of pending, processing, completed or of pending,
    processing, failed; completed is only stored after processing and no
    status is stored after a later one.  Failed follows pending directly
    exactly when the first lookup or the commit of processing raised and the
    handler's write went through. *)
Theorem status_moves_forward env video_id video_path filename db_url analyzer db_session w r :
  db w !! video_id = Some r -> status r = PENDING ->
  let h := status_history video_id r
             (new_events w
                (process_video_analysis env video_id video_path filename db_url
                   analyzer db_session w).2) in
  lifecycle h /\ (COMPLETED ∈ h -> PROCESSING ∈ h)
  /\ (never_skips_processing h
      \/ (h = [PENDING; FAILED]
          /\ (is_Some (query_raises env) \/ is_Some (commit_processing_raises env)))).
Proof.
  intros Hr Hs h. subst h. rewrite run_status_history.
  pose proof (job_status_history env video_id video_path analyzer w r Hr Hs) as H.
  simpl in H.
  split; [| split].
  - apply lifecycle_cases. tauto.
  - destruct H as [-> | [-> | [-> | [-> | [-> _]]]]]; in_list.
  - unfold never_skips_processing.
    destruct H as [-> | [-> | [-> | [-> | [-> Hf]]]]]; [left | left | left | left | right].
    1-4: in_list.
    split; [reflexivity | exact Hf].
Qed.

Lemma status_moves_forward_witness :
  lifecycle
    (status_history 1 (new_video_analysis "a.mp4" 100)
       (new_events sample_world (sample_run calm finds_motion))).
Proof.
  apply (status_moves_forward calm 1 "/tmp/1_a.mp4" "a.mp4" "sqlite://" finds_motion (Some tt)
           sample_world (new_video_analysis "a.mp4" 100)); reflexivity.
Defined.

(** C1 as stated fails: when the first lookup raises (no connection could be
    had from the pool) and the handler's lookup and commit then go through,
    the record goes from pending to failed and processing is never stored. *)
Lemma status_skips_processing :
  ~ never_skips_processing
      (status_history 1 (new_video_analysis "a.mp4" 100)
         (new_events sample_world
            (sample_run (with_query_raises (SQLAlchemyError "QueuePool limit reached") calm)
               finds_motion))).
Proof.
  replace (status_history _ _ _) with [PENDING; FAILED] by (vm_compute; reflexivity).
  unfold never_skips_processing. in_list.
Qed.

(** ** Result columns *)

Lemma job_exclusive env video_id video_path analyzer w r r' :
  db w !! video_id = Some r -> unprocessed r ->
  db (job env video_id video_path analyzer (new_session w)).2 !! video_id = Some r' ->
  terminal (status r') = true ->
  (~ result_lost env analyzer video_path -> exclusive r')
  /\ (result_lost env analyzer video_path ->
      status r' = FAILED /\ result_set r' = true /\ error_set r' = true).
Proof.
  intros Hr (Hs & Hm & Hd & He & Ha). unfold result_lost.
  job_cases w video_id.
  all: rewrite ?lookup_insert_eq; intros; simplify_eq; simpl in *; try congruence.
  all: split; [intros Hkept | intros (? & ? & [? ?] & [? ?]); simplify_eq].
  all: try (exfalso; apply Hkept; by eauto 10).
  all: unfold exclusive, result_set, error_set; simpl; rewrite ?Hm, ?Hd, ?He; auto.
Qed.

(** C2, as the code has it: a record that is still unprocessed when the run
    starts (as the upload creates it) and terminal after the run has exactly
    one of [has_motion] with [processing_duration_ms], or [error_message],
    filled, unless the detector returned a result and the commit that should
    store it raised: the except clause then writes failed and the error
    message on the object that carries the result, and the record has both
    groups filled. *)
Theorem terminal_exclusivity env video_id video_path filename db_url analyzer db_session
    w r r' :
  db w !! video_id = Some r -> unprocessed r ->
  db (process_video_analysis env video_id video_path filename db_url analyzer db_session w).2
    !! video_id = Some r' ->
  terminal (status r') = true ->
  (~ result_lost env analyzer video_path -> exclusive r')
  /\ (result_lost env analyzer video_path ->
      status r' = FAILED /\ result_set r' = true /\ error_set r' = true).
Proof. rewrite run_db. apply job_exclusive. Qed.

Lemma terminal_exclusivity_witness :
  exclusive
    {| filename := "a.mp4"; upload_time := 100; analysis_time := Some 200;
       has_motion := Some true; processing_duration_ms := Some 1500;
       status := COMPLETED; error_message := None |}.
Proof.
  refine (proj1 (terminal_exclusivity calm 1 "/tmp/1_a.mp4" "a.mp4" "sqlite://" finds_motion
                   (Some tt) sample_world (new_video_analysis "a.mp4" 100) _ _ _ _ _) _).
  - reflexivity.
  - repeat split.
  - vm_compute. reflexivity.
  - reflexivity.
  - intros (_ & _ & _ & [e He]). discriminate He.
Defined.

(** C2 as stated fails in two ways.  The detector returns, the commit of its
    result raises and the write of the except clause goes through: the
    record is failed with [has_motion], [processing_duration_ms] and
    [error_message] all filled.  And a record that an earlier run has left
    failed keeps its error message when a later run completes it. *)
Lemma terminal_record_with_both_groups :
  let lost := db (sample_run
                    (with_commit_completed_raises (SQLAlchemyError "connection lost") calm)
                    finds_motion) !! 1%N in
  let again := db (process_video_analysis calm 1 "/tmp/1_a.mp4" "a.mp4" "sqlite://"
                     finds_motion (Some tt) failed_before).2 !! 1%N in
  lost = Some {| filename := "a.mp4"; upload_time := 100; analysis_time := Some 200;
                 has_motion := Some true; processing_duration_ms := Some 1500;
                 status := FAILED; error_message := Some "connection lost" |}
  /\ again = Some {| filename := "a.mp4"; upload_time := 100; analysis_time := Some 200;
                     has_motion := Some true; processing_duration_ms := Some 1500;
                     status := COMPLETED;
                     error_message := Some "Не удалось открыть видео файл: /tmp/1_a.mp4" |}
  /\ (exists r', lost = Some r' /\ terminal (status r') = true /\ ~ exclusive r')
  /\ (exists r', again = Some r' /\ terminal (status r') = true /\ ~ exclusive r').
Proof.
  intros lost again.
  assert (lost = Some {| filename := "a.mp4"; upload_time := 100; analysis_time := Some 200;
                         has_motion := Some true; processing_duration_ms := Some 1500;
                         status := FAILED; error_message := Some "connection lost" |})
    as Hlost by (vm_compute; reflexivity).
  assert (again = Some {| filename := "a.mp4"; upload_time := 100;
                          analysis_time := Some 200; has_motion := Some true;
                          processing_duration_ms := Some 1500; status := COMPLETED;
                          error_message
                          := Some "Не удалось открыть видео файл: /tmp/1_a.mp4" |})
    as Hagain by (vm_compute; reflexivity).
  split; [exact Hlost |]. split; [exact Hagain |].
  split; eexists; (split; [eassumption |]); split; try reflexivity; discriminate.
Qed.

(** ** Cleanup *)

Lemma run_files env video_id video_path filename db_url analyzer db_session w :
  files (process_video_analysis env video_id video_path filename db_url analyzer db_session w).2
  = match remove_raises env with
    | None => files w ∖ {[video_path]}
    | Some _ => files w
    end.
Proof. rewrite run_split. simpl. by rewrite finally_block_files, job_files. Qed.

(** C3, as the code has it: on every branch (detector success, detector
    failure, missing record) the artifact does not exist after the run,
    unless [os.remove] itself raises; then the error is only logged and the
    file stays.  No other file is touched. *)
Theorem artifact_removed env video_id video_path filename db_url analyzer db_session w :
  remove_raises env = None ->
  let w' := (process_video_analysis env video_id video_path filename db_url
               analyzer db_session w).2 in
  (video_path ∉ files w') /\ files w' = files w ∖ {[video_path]}.
Proof.
  intros Hrm w'. subst w'. rewrite run_files, Hrm.
  split; [| reflexivity].
  rewrite elem_of_difference, elem_of_singleton. tauto.
Qed.

Lemma artifact_removed_witness :
  "/tmp/1_a.mp4" ∉ files (sample_run calm cannot_open).
Proof.
  apply (artifact_removed calm 1 "/tmp/1_a.mp4" "a.mp4" "sqlite://" cannot_open (Some tt)
           sample_world).
  reflexivity.
Defined.

(** C3 as stated fails: when [os.remove] raises, the run returns and the
    artifact is still there. *)
Lemma artifact_left_behind :
  "/tmp/1_a.mp4" ∈
    files (sample_run (with_remove_raises (OSError "Permission denied") calm) finds_motion).
Proof.
  unfold sample_run. rewrite run_files. simpl.
  apply elem_of_singleton. reflexivity.
Qed.

(** ** The queue gauge *)

Lemma run_metrics env video_id video_path filename db_url analyzer db_session w :
  let wj := (job env video_id video_path analyzer (new_session w)).2 in
  metrics (process_video_analysis env video_id video_path filename db_url
             analyzer db_session w).2
  = match count_raises env with
    | None => set_videos_in_queue_m (count_in_queue (db wj)) (metrics wj)
    | Some _ => metrics wj
    end.
Proof. intros wj. rewrite run_split. simpl. apply finally_block_metrics. Qed.

(** C9, as the code has it: after a run the gauge equals the number of
    pending or processing records of the store, unless the count query
    raises; then the gauge keeps the value it had before the run. *)
Theorem queue_gauge env video_id video_path filename db_url analyzer db_session w :
  let w' := (process_video_analysis env video_id video_path filename db_url
               analyzer db_session w).2 in
  videos_in_queue (metrics w')
  = match count_raises env with
    | None => count_in_queue (db w')
    | Some _ => videos_in_queue (metrics w)
    end.
Proof.
  intros w'. subst w'. rewrite run_metrics, run_db.
  destruct (count_raises env); [apply job_videos_in_queue | reflexivity].
Qed.

(** C9 as stated fails: the count query raises, the gauge keeps its old value
    7 while no record of the store is pending or processing. *)
Lemma queue_gauge_stale :
  let w' := sample_run (with_count_raises (SQLAlchemyError "connection lost") calm)
              finds_motion in
  videos_in_queue (metrics w') = 7 /\ count_in_queue (db w') = 0.
Proof. vm_compute. split; reflexivity. Qed.

(** ** A record that is not in the store *)

Lemma job_missing env video_id video_path analyzer w :
  db w !! video_id = None -> query_raises env = None ->
  let wj := (job env video_id video_path analyzer (new_session w)).2 in
  db wj = db w /\ metrics wj = metrics w.
Proof. intros Hr Hq. job_cases w video_id; simplify_eq. split; reflexivity. Qed.

(** C5, as the code has it: when the lookup finds no record (the id is
    absent and the lookup does not raise) the run returns normally, leaves
    the store as it was, increments neither the processed counter nor the
    error counter, records no duration, touches no file but the artifact and
    removes that one unless [os.remove] raises. *)
Theorem missing_record env video_id video_path filename db_url analyzer db_session w :
  db w !! video_id = None -> query_raises env = None ->
  let run := process_video_analysis env video_id video_path filename db_url
               analyzer db_session w in
  run.1 = Returned tt
  /\ db run.2 = db w
  /\ video_processed_total (metrics run.2) = video_processed_total (metrics w)
  /\ video_errors_total (metrics run.2) = video_errors_total (metrics w)
  /\ video_processing_duration_seconds (metrics run.2)
     = video_processing_duration_seconds (metrics w)
  /\ files w ∖ {[video_path]} ⊆ files run.2 ⊆ files w
  /\ (remove_raises env = None -> video_path ∉ files run.2).
Proof.
  intros Hr Hq run. subst run.
  destruct (job_missing env video_id video_path analyzer w Hr Hq) as [Hdb Hm].
  rewrite run_metrics, run_db, run_files, Hdb, Hm.
  split; [by rewrite run_split |]. split; [reflexivity |].
  repeat split.
  1-3: by destruct (count_raises env).
  - destruct (remove_raises env); [| reflexivity].
    intros x. rewrite elem_of_difference. tauto.
  - destruct (remove_raises env); [reflexivity |].
    intros x. rewrite elem_of_difference. tauto.
  - intros ->. rewrite elem_of_difference, elem_of_singleton. tauto.
Qed.

Lemma missing_record_witness :
  let run := process_video_analysis calm 2 "/tmp/1_a.mp4" "a.mp4" "sqlite://"
               finds_motion (Some tt) sample_world in
  run.1 = Returned tt /\ db run.2 = db sample_world.
Proof.
  destruct (missing_record calm 2 "/tmp/1_a.mp4" "a.mp4" "sqlite://" finds_motion (Some tt)
              sample_world) as (H1 & H2 & _); [reflexivity | reflexivity |].
  split; [exact H1 | exact H2].
Defined.

(** C5 as stated fails in two ways: when [os.remove] raises the artifact is
    not deleted, and when the lookup of the absent id raises the run is
    counted as a failure (processed counter labelled failed and error
    counter). *)
Lemma missing_record_exceptions :
  let absent := 2%N in
  let stays := process_video_analysis
                 (with_remove_raises (OSError "Permission denied") calm)
                 absent "/tmp/1_a.mp4" "a.mp4" "sqlite://" finds_motion (Some tt)
                 sample_world in
  let counted := process_video_analysis
                   (with_query_raises (SQLAlchemyError "connection lost") calm)
                   absent "/tmp/1_a.mp4" "a.mp4" "sqlite://" finds_motion (Some tt)
                   sample_world in
  db sample_world !! absent = None
  /\ "/tmp/1_a.mp4" ∈ files stays.2
  /\ labels (video_processed_total (metrics counted.2)) (value FAILED) = 1%nat
  /\ video_errors_total (metrics counted.2) = 1%nat.
Proof.
  intros absent stays counted. subst stays counted.
  split; [reflexivity |]. split.
  - rewrite run_files. simpl. apply elem_of_singleton. reflexivity.
  - vm_compute. split; reflexivity.
Qed.

(** ** Processing is stored before the detector runs *)

Lemma detect_in_job_events evj evh pre post p table :
  evj ++ evh = pre ++ DetectMotion p table :: post -> Forall housekeeping evh ->
  exists post', evj = pre ++ DetectMotion p table :: post' /\ post = post' ++ evh.
Proof.
  revert pre. induction evj as [|ev evj IH]; intros pre Heq Hh.
  - simpl in Heq. subst evh.
    apply Forall_app in Hh as [_ Hh]. inversion Hh as [|? ? Hd _]. destruct Hd.
  - destruct pre as [|ev' pre]; simpl in Heq; injection Heq as -> Heq.
    + exists evj. by split.
    + destruct (IH pre Heq Hh) as (post' & -> & ->). exists post'. by split.
Qed.

(** The table that the detector call records is the table of that moment:
    the record is in it with status processing, written by a commit of the
    job before the call; every row the job writes afterwards, and the row it
    leaves, has a status other than pending. *)
Lemma job_detect env video_id video_path analyzer w pre post p table :
  new_events w (job env video_id video_path analyzer (new_session w)).2
  = pre ++ DetectMotion p table :: post ->
  p = video_path
  /\ (exists r, table !! video_id = Some r /\ status r = PROCESSING)
  /\ (exists r, Commit video_id r ∈ pre /\ status r = PROCESSING)
  /\ Forall (fun row => status row ≠ PENDING) (commits video_id post)
  /\ (exists r', db (job env video_id video_path analyzer (new_session w)).2 !! video_id
                 = Some r' /\ status r' ≠ PENDING).
Proof.
  job_cases w video_id; trace_norm; intros Heq.
  all: repeat match goal with
       | H : _ = ?l ++ DetectMotion _ _ :: _ |- _ => destruct l; simpl in H; simplify_eq
       end.
  all: rewrite ?lookup_insert_eq.
  all: split_and!; try reflexivity; eauto using list_elem_of_here.
  all: simpl; rewrite ?decide_True by done; repeat constructor; simpl; try discriminate.
  all: eexists; split; [reflexivity | discriminate].
Qed.

(** C6: whenever the detector is invoked, the table that any other session
    reads at that moment holds the record with status processing, stored by
    a commit of the run before the call (and the detector gets the artifact
    path).  Every row the run writes for the record after that, and the row
    it leaves behind, has a status other than pending: no lookup sees
    pending once the detector has started. *)
Theorem processing_before_detector env video_id video_path filename db_url analyzer db_session
    w pre post p table :
  let w' := (process_video_analysis env video_id video_path filename db_url
               analyzer db_session w).2 in
  new_events w w' = pre ++ DetectMotion p table :: post ->
  p = video_path
  /\ (exists r, table !! video_id = Some r /\ status r = PROCESSING)
  /\ (exists r, Commit video_id r ∈ pre /\ status r = PROCESSING)
  /\ Forall (fun row => status row ≠ PENDING) (commits video_id post)
  /\ (exists r', db w' !! video_id = Some r' /\ status r' ≠ PENDING).
Proof.
  intros w'. subst w'. rewrite run_db.
  destruct (run_events env video_id video_path filename db_url analyzer db_session w)
    as (evh & -> & Hh).
  intros Heq. destruct (detect_in_job_events _ _ _ _ _ _ Heq Hh) as (post' & Hj & ->).
  destruct (job_detect env video_id video_path analyzer w pre post' p table Hj)
    as (Hp & Htable & Hbefore & Hafter & Hend).
  split_and!; try assumption.
  by rewrite commits_app, (commits_housekeeping _ evh Hh), app_nil_r.
Qed.

Lemma processing_before_detector_witness :
  exists r,
    ({[ 1%N := set_status PROCESSING (new_video_analysis "a.mp4" 100) ]}
       : gmap N VideoAnalysis) !! 1%N = Some r
    /\ status r = PROCESSING.
Proof.
  refine (proj1 (proj2 (processing_before_detector calm 1 "/tmp/1_a.mp4" "a.mp4" "sqlite://"
                   cannot_open (Some tt) sample_world
                   [Commit 1 (set_status PROCESSING (new_video_analysis "a.mp4" 100))]
                   _ "/tmp/1_a.mp4"
                   {[ 1%N := set_status PROCESSING (new_video_analysis "a.mp4" 100) ]} _))).
  vm_compute. reflexivity.
Defined.

(** ** Metrics *)

Lemma labels_increment c l :
  labels (<[l := S (labels c l)]> c) l = S (labels c l).
Proof. unfold labels at 1. by rewrite lookup_insert_eq. Qed.

Lemma labels_increment_other c l l' :
  l ≠ l' -> labels (<[l := S (labels c l)]> c) l' = labels c l'.
Proof. intros Hl. unfold labels at 1 3. by rewrite lookup_insert_ne. Qed.

Lemma run_detector_called env video_id video_path filename db_url analyzer db_session w :
  detector_called
    (new_events w
       (process_video_analysis env video_id video_path filename db_url analyzer db_session w).2)
  = detector_called (new_events w (job env video_id video_path analyzer (new_session w)).2).
Proof.
  destruct (run_events env video_id video_path filename db_url analyzer db_session w)
    as (evh & -> & Hh).
  rewrite detector_called_app, (detector_called_housekeeping evh Hh). apply orb_false_r.
Qed.

Lemma job_metrics_completed env video_id video_path analyzer w motion ms :
  detector_called (new_events w (job env video_id video_path analyzer (new_session w)).2) = true ->
  analyzer video_path = Returned (motion, ms) ->
  commit_completed_raises env = None ->
  metrics (job env video_id video_path analyzer (new_session w)).2
  = observe_processing_duration_m (ms # 1000)
      (increment_video_processed_m (value COMPLETED) (metrics w)).
Proof.
  intros Hcall Han Hc. revert Hcall.
  job_cases w video_id; trace_norm; intros; simplify_eq; reflexivity.
Qed.

Lemma job_metrics_failed env video_id video_path analyzer w :
  detector_called (new_events w (job env video_id video_path analyzer (new_session w)).2) = true ->
  (exists e, analyzer video_path = Raised e) \/ is_Some (commit_completed_raises env) ->
  metrics (job env video_id video_path analyzer (new_session w)).2
  = increment_video_errors_m (increment_video_processed_m (value FAILED) (metrics w)).
Proof.
  intros Hcall Hfail. revert Hcall.
  job_cases w video_id; trace_norm; intros; simplify_eq; try reflexivity.
  all: destruct Hfail as [[? ?] | [? ?]]; simplify_eq.
Qed.

Lemma run_counters env video_id video_path filename db_url analyzer db_session w :
  let m' := metrics (process_video_analysis env video_id video_path filename db_url
                       analyzer db_session w).2 in
  let mj := metrics (job env video_id video_path analyzer (new_session w)).2 in
  video_processed_total m' = video_processed_total mj
  /\ video_processing_duration_seconds m' = video_processing_duration_seconds mj
  /\ video_errors_total m' = video_errors_total mj.
Proof. simpl. rewrite run_metrics. by destruct (count_raises env). Qed.

(** C7, as the code has it: a run whose detector call returns and whose
    commit of the result goes through increments the processed counter
    labelled completed once and records the single observation
    [processing_duration_ms / 1000]; a run whose detector call raises
    increments the processed counter labelled failed once and the error
    counter once.  A run whose detector call returns but whose commit of the
    result raises is counted like a detector failure. *)
Theorem metrics_follow_outcome env video_id video_path filename db_url analyzer db_session w :
  let w' := (process_video_analysis env video_id video_path filename db_url
               analyzer db_session w).2 in
  let processed l := labels (video_processed_total (metrics w)) (value l) in
  let processed' l := labels (video_processed_total (metrics w')) (value l) in
  detector_called (new_events w w') = true ->
  (forall motion ms,
      analyzer video_path = Returned (motion, ms) -> commit_completed_raises env = None ->
      processed' COMPLETED = S (processed COMPLETED)
      /\ video_processing_duration_seconds (metrics w')
         = video_processing_duration_seconds (metrics w) ++ [ms # 1000]
      /\ processed' FAILED = processed FAILED
      /\ video_errors_total (metrics w') = video_errors_total (metrics w))
  /\ ((exists e, analyzer video_path = Raised e) \/ is_Some (commit_completed_raises env) ->
      processed' FAILED = S (processed FAILED)
      /\ video_errors_total (metrics w') = S (video_errors_total (metrics w))
      /\ processed' COMPLETED = processed COMPLETED
      /\ video_processing_duration_seconds (metrics w')
         = video_processing_duration_seconds (metrics w)).
Proof.
  intros w' processed processed'. subst w' processed processed'.
  rewrite run_detector_called. intros Hcall.
  destruct (run_counters env video_id video_path filename db_url analyzer db_session w)
    as (-> & -> & ->).
  split.
  - intros motion ms Han Hc.
    rewrite (job_metrics_completed env video_id video_path analyzer w motion ms Hcall Han Hc).
    simpl. rewrite labels_increment, labels_increment_other by done. auto.
  - intros Hfail.
    rewrite (job_metrics_failed env video_id video_path analyzer w Hcall Hfail).
    simpl. rewrite labels_increment, labels_increment_other by done. auto.
Qed.

Lemma metrics_follow_outcome_witness :
  labels (video_processed_total (metrics (sample_run calm finds_motion))) (value COMPLETED)
  = 1%nat
  /\ video_processing_duration_seconds (metrics (sample_run calm finds_motion))
     = [1500 # 1000].
Proof.
  destruct (metrics_follow_outcome calm 1 "/tmp/1_a.mp4" "a.mp4" "sqlite://" finds_motion
              (Some tt) sample_world) as [Hok _]; [reflexivity |].
  destruct (Hok true 1500) as (H1 & H2 & _); [reflexivity | reflexivity |].
  split; [exact H1 | exact H2].
Defined.

(** C7 as stated fails: the detector call succeeds, the commit of the result
    raises (and with it the handler's lookup on the same session), and the
    run increments the counter labelled failed and the error counter; the
    counter labelled completed stays at 0 and no duration is observed. *)
Lemma detector_success_counted_as_failure :
  let w' := sample_run
              (with_requery_raises (SQLAlchemyError "transaction has been rolled back")
                 (with_commit_completed_raises (SQLAlchemyError "connection lost") calm))
              finds_motion in
  finds_motion "/tmp/1_a.mp4" = Returned (true, 1500)
  /\ detector_called (new_events sample_world w') = true
  /\ labels (video_processed_total (metrics w')) (value COMPLETED) = 0%nat
  /\ video_processing_duration_seconds (metrics w') = []
  /\ labels (video_processed_total (metrics w')) (value FAILED) = 1%nat
  /\ video_errors_total (metrics w') = 1%nat.
Proof. vm_compute. repeat split; reflexivity. Qed.

(** ** The time of analysis *)

Lemma job_analysis_time env video_id video_path analyzer w r r' :
  db w !! video_id = Some r -> unprocessed r ->
  db (job env video_id video_path analyzer (new_session w)).2 !! video_id = Some r' ->
  let cs := commits video_id
              (new_events w (job env video_id video_path analyzer (new_session w)).2) in
  upload_time r' = upload_time r
  /\ (status r' = COMPLETED ->
      map analysis_time cs = [None; Some (utcnow env)]
      /\ analysis_time r' = Some (utcnow env))
  /\ (status r' = FAILED -> result_lost env analyzer video_path ->
      map analysis_time cs = [None; Some (utcnow env)]
      /\ analysis_time r' = Some (utcnow env))
  /\ (status r' = FAILED -> ~ result_lost env analyzer video_path ->
      Forall (fun c => analysis_time c = None) cs /\ analysis_time r' = None).
Proof.
  intros Hr (Hs & Hm & Hd & He & Ha). unfold result_lost.
  job_cases w video_id; trace_norm; rewrite ?decide_True by done; simpl.
  all: rewrite ?lookup_insert_eq; intros; simplify_eq; simpl in *.
  all: split; [reflexivity |].
  all: split_and!; intros; try congruence.
  all: try match goal with
           | H : status ?x = _, H' : terminal (status ?x) = false |- _ =>
               rewrite H in H'; discriminate
           end.
  all: try match goal with
           | H : _ /\ _ /\ (exists _, _) /\ is_Some _ |- _ =>
               destruct H as (? & ? & [? ?] & [? ?]); simplify_eq
           end.
  all: try match goal with
           | H : ~ _ |- _ => exfalso; apply H; by eauto 10
           end.
  all: rewrite ?Ha; repeat constructor; assumption.
Qed.

(** C8, as the code has it: a run that drives an unprocessed record to
    completed sets [analysis_time] once, in the commit that stores completed,
    to the reading of the clock taken at line 77; the commit of processing
    before it leaves it absent.  A run that drives the record to failed
    stores [analysis_time] only when the detector had returned and the commit
    of its result raised: the failed row then carries that clock reading,
    again set once, in the commit that stores failed; every other failed run
    leaves [analysis_time] absent.  [upload_time] is never changed; the code
    does not compare the two time stamps. *)
Theorem analysis_time_on_completion env video_id video_path filename db_url analyzer db_session
    w r r' :
  let w' := (process_video_analysis env video_id video_path filename db_url
               analyzer db_session w).2 in
  let cs := commits video_id (new_events w w') in
  db w !! video_id = Some r -> unprocessed r -> db w' !! video_id = Some r' ->
  upload_time r' = upload_time r
  /\ (status r' = COMPLETED ->
      map analysis_time cs = [None; Some (utcnow env)]
      /\ analysis_time r' = Some (utcnow env))
  /\ (status r' = FAILED -> result_lost env analyzer video_path ->
      map analysis_time cs = [None; Some (utcnow env)]
      /\ analysis_time r' = Some (utcnow env))
  /\ (status r' = FAILED -> ~ result_lost env analyzer video_path ->
      Forall (fun c => analysis_time c = None) cs /\ analysis_time r' = None).
Proof.
  intros w' cs. subst w' cs. rewrite run_db. intros Hr Hu Hr'.
  destruct (run_events env video_id video_path filename db_url analyzer db_session w)
    as (evh & -> & Hh).
  rewrite commits_app, (commits_housekeeping _ evh Hh), app_nil_r.
  exact (job_analysis_time env video_id video_path analyzer w r r' Hr Hu Hr').
Qed.

Lemma analysis_time_on_completion_witness :
  analysis_time
    {| filename := "a.mp4"; upload_time := 100; analysis_time := Some 200;
       has_motion := Some true; processing_duration_ms := Some 1500;
       status := COMPLETED; error_message := None |}
  = Some (utcnow calm).
Proof.
  refine (proj2 (proj1 (proj2
    (analysis_time_on_completion calm 1 "/tmp/1_a.mp4" "a.mp4" "sqlite://" finds_motion
       (Some tt) sample_world (new_video_analysis "a.mp4" 100) _ _ _ _)) _)).
  - reflexivity.
  - repeat split.
  - vm_compute. reflexivity.
  - reflexivity.
Defined.

(** C8 as stated fails: a run that the detector drives to failed leaves
    [analysis_time] absent, and a completed run whose clock reading (50) is
    earlier than the stored [upload_time] (100) stores that earlier
    reading. *)
Lemma analysis_time_exceptions :
  let failed := db (sample_run calm cannot_open) !! 1%N in
  let early := db (sample_run (with_utcnow 50 calm) finds_motion) !! 1%N in
  status <$> failed = Some FAILED
  /\ analysis_time <$> failed = Some None
  /\ status <$> early = Some COMPLETED
  /\ upload_time <$> early = Some 100
  /\ analysis_time <$> early = Some (Some 50).
Proof. vm_compute. repeat split; reflexivity. Qed.

(** ** The detector *)

Lemma int_nonneg (x : Q) : (0 <= x)%Q -> 0 <= int x.
Proof.
  unfold Qle, int. simpl. intros H.
  apply Z.quot_pos; lia.
Qed.

(** The frame loop returns on every list of frames unless [frame_skip] is -1. *)
Lemma analyze_frames_returns cvt self rest :
  frame_skip self ≠ -1 ->
  forall prev_gray frame_count frames_analyzed motion_detected,
  exists motion n,
    analyze_frames cvt self rest prev_gray frame_count frames_analyzed motion_detected
    = Returned (motion, n).
Proof.
  intros Hskip. induction rest as [|frame rest IH]; intros prev fc fa md; simpl.
  - eauto.
  - destruct (Z.eqb_spec (frame_skip self + 1) 0) as [Hz | _]; [lia |].
    destruct (negb ((fc + 1) mod (frame_skip self + 1) =? 0)); [apply IH |].
    destruct (negb (Qle_bool _ _)); [| apply IH].
    destruct (10 <=? fa + 1); [eauto | apply IH].
Qed.

(** C10, as the code has it: [detect_motion] raises [ValueError] when the file
    cannot be opened or delivers no frame.  When opening and the first read
    succeed it returns, provided [frame_skip] is not -1; with exactly one
    readable frame it returns no motion whatever the configuration.  The
    reported duration is not negative when the second clock reading is not
    earlier than the first. *)
Theorem detect_motion_failures cvt self cap start_time end_time video_path :
  (isOpened cap = false ->
   detect_motion cvt self cap start_time end_time video_path
   = Raised (ValueError ("Не удалось открыть видео файл: " +:+ video_path)))
  /\ (isOpened cap = true -> frames cap = [] ->
      detect_motion cvt self cap start_time end_time video_path
      = Raised (ValueError "Не удалось прочитать первый кадр видео"))
  /\ (isOpened cap = true -> frames cap ≠ [] -> frame_skip self ≠ -1 ->
      exists motion,
        detect_motion cvt self cap start_time end_time video_path
        = Returned (motion, int ((end_time - start_time) * 1000)%Q))
  /\ (isOpened cap = true -> (exists frame, frames cap = [frame]) ->
      detect_motion cvt self cap start_time end_time video_path
      = Returned (false, int ((end_time - start_time) * 1000)%Q))
  /\ ((start_time <= end_time)%Q -> 0 <= int ((end_time - start_time) * 1000)%Q).
Proof.
  unfold detect_motion. repeat split.
  - intros ->. reflexivity.
  - intros -> ->. reflexivity.
  - intros -> Hne Hskip. simpl.
    destruct (frames cap) as [|prev_frame rest]; [done |].
    destruct (analyze_frames_returns cvt self rest Hskip (cvt prev_frame) 0 0 false)
      as (motion & n & ->).
    eauto.
  - intros -> [frame ->]. reflexivity.
  - intros Hle. apply int_nonneg.
    apply Qmult_le_0_compat; [| discriminate].
    unfold Qminus. rewrite <- Qle_minus_iff. exact Hle.
Qed.

Lemma detect_motion_failures_witness :
  detect_motion mean_gray production {| isOpened := true; frames := [black] |} 10 (25 # 2)
    "/tmp/1_a.mp4"
  = Returned (false, 2500).
Proof.
  refine (proj1 (proj2 (proj2 (proj2
    (detect_motion_failures mean_gray production {| isOpened := true; frames := [black] |}
       10 (25 # 2) "/tmp/1_a.mp4")))) _ _).
  - reflexivity.
  - exists black. reflexivity.
Defined.

(** C10 as stated fails: with [frame_skip = -1] a file that opens and
    delivers two frames makes [detect_motion] raise [ZeroDivisionError]; and
    when the clock is set back during the call the duration of a one-frame
    file is negative. *)
Lemma detect_motion_other_failures :
  detect_motion mean_gray skip_minus_one {| isOpened := true; frames := [black; white] |}
    10 11 "/tmp/1_a.mp4"
  = Raised (ZeroDivisionError "integer modulo by zero")
  /\ detect_motion mean_gray production {| isOpened := true; frames := [black] |}
       10 8 "/tmp/1_a.mp4"
     = Returned (false, -2000).
Proof. split; reflexivity. Qed.

(** ** The two modules together *)

(** A well-formed clip with motion: the record is completed with
    [has_motion = True] and a positive duration, the artifact is deleted and
    the run is counted as completed. *)
Example run_on_moving_clip :
  let w' := sample_run calm
              (video_analyzer mean_gray production (fun _ => moving_clip) 10 (25 # 2)) in
  db w' !! 1%N
  = Some {| filename := "a.mp4"; upload_time := 100; analysis_time := Some 200;
            has_motion := Some true; processing_duration_ms := Some 2500;
            status := COMPLETED; error_message := None |}
  /\ files w' = ∅
  /\ labels (video_processed_total (metrics w')) (value COMPLETED) = 1%nat
  /\ videos_in_queue (metrics w') = 0.
Proof. vm_compute. repeat split; reflexivity. Qed.

(** A file of zero bytes: the record is failed with the detector's message,
    the artifact is deleted, and the run is counted as failed and as an
    error. *)
Example run_on_zero_bytes :
  let w' := sample_run calm
              (video_analyzer mean_gray production (fun _ => zero_bytes) 10 (25 # 2)) in
  db w' !! 1%N
  = Some {| filename := "a.mp4"; upload_time := 100; analysis_time := None;
            has_motion := None; processing_duration_ms := None;
            status := FAILED;
            error_message := Some "Не удалось открыть видео файл: /tmp/1_a.mp4" |}
  /\ files w' = ∅
  /\ labels (video_processed_total (metrics w')) (value FAILED) = 1%nat
  /\ video_errors_total (metrics w') = 1%nat.
Proof. vm_compute. repeat split; reflexivity. Qed.

(** ** What a run leaves alone *)

Lemma job_dom env video_id video_path analyzer w :
  dom (db (job env video_id video_path analyzer (new_session w)).2) = dom (db w).
Proof.
  job_cases w video_id; rewrite ?insert_insert_eq;
    try reflexivity; apply dom_insert_lookup_L; eauto.
Qed.

(** A run neither creates nor deletes a record, and every record stored
    under another id is after the run what it was before. *)
Theorem run_other_records env video_id video_path filename db_url analyzer db_session w :
  let w' := (process_video_analysis env video_id video_path filename db_url
               analyzer db_session w).2 in
  dom (db w') = dom (db w) /\ forall k, k ≠ video_id -> db w' !! k = db w !! k.
Proof.
  simpl. rewrite run_db. split; [apply job_dom |].
  intros k Hk. by apply job_db_other.
Qed.

Lemma job_keeps_identity env video_id video_path analyzer w r :
  db w !! video_id = Some r ->
  exists r', db (job env video_id video_path analyzer (new_session w)).2 !! video_id = Some r'
             /\ filename r' = filename r /\ upload_time r' = upload_time r.
Proof.
  intros Hr. job_cases w video_id; rewrite ?lookup_insert_eq; simplify_eq; eauto.
Qed.

(** The record a run works on is still there afterwards, and its [filename]
    and [upload_time] are never changed, whatever fails. *)
Theorem run_keeps_identity env video_id video_path name db_url analyzer db_session w r :
  db w !! video_id = Some r ->
  exists r',
    db (process_video_analysis env video_id video_path name db_url
          analyzer db_session w).2 !! video_id = Some r'
    /\ filename r' = filename r /\ upload_time r' = upload_time r.
Proof. rewrite run_db. apply job_keeps_identity. Qed.

Lemma run_keeps_identity_witness :
  exists r', db (sample_run calm cannot_open) !! 1%N = Some r'
             /\ filename r' = "a.mp4" /\ upload_time r' = 100.
Proof.
  apply (run_keeps_identity calm 1 "/tmp/1_a.mp4" "a.mp4" "sqlite://" cannot_open (Some tt)
           sample_world (new_video_analysis "a.mp4" 100)).
  reflexivity.
Defined.

(** ** The record after a run *)

Lemma job_completed env video_id video_path analyzer w r motion ms :
  db w !! video_id = Some r ->
  query_raises env = None -> commit_processing_raises env = None ->
  commit_completed_raises env = None ->
  analyzer video_path = Returned (motion, ms) ->
  db (job env video_id video_path analyzer (new_session w)).2 !! video_id
  = Some {| filename := filename r; upload_time := upload_time r;
            analysis_time := Some (utcnow env); has_motion := Some motion;
            processing_duration_ms := Some ms; status := COMPLETED;
            error_message := error_message r |}.
Proof.
  intros Hr Hq Hc1 Hc2 Han. revert Hq Hc1 Hc2 Han.
  job_cases w video_id; intros; simplify_eq; rewrite ?lookup_insert_eq; reflexivity.
Qed.

(** When the lookup and the two commits go through and the detector returns,
    the record is stored as completed with the detector's two results and
    the clock reading; the other columns keep their values. *)
Theorem run_stores_result env video_id video_path name db_url analyzer db_session
    w r motion ms :
  db w !! video_id = Some r ->
  query_raises env = None -> commit_processing_raises env = None ->
  commit_completed_raises env = None ->
  analyzer video_path = Returned (motion, ms) ->
  db (process_video_analysis env video_id video_path name db_url analyzer db_session w).2
    !! video_id
  = Some {| filename := filename r; upload_time := upload_time r;
            analysis_time := Some (utcnow env); has_motion := Some motion;
            processing_duration_ms := Some ms; status := COMPLETED;
            error_message := error_message r |}.
Proof. rewrite run_db. apply job_completed. Qed.

Lemma run_stores_result_witness :
  db (sample_run calm finds_motion) !! 1%N
  = Some {| filename := "a.mp4"; upload_time := 100; analysis_time := Some 200;
            has_motion := Some true; processing_duration_ms := Some 1500;
            status := COMPLETED; error_message := None |}.
Proof.
  apply (run_stores_result calm 1 "/tmp/1_a.mp4" "a.mp4" "sqlite://" finds_motion (Some tt)
           sample_world (new_video_analysis "a.mp4" 100) true 1500); reflexivity.
Defined.

Lemma job_failed env video_id video_path analyzer w r e :
  db w !! video_id = Some r ->
  query_raises env = None -> commit_processing_raises env = None ->
  requery_raises env = None -> commit_failed_raises env = None ->
  analyzer video_path = Raised e ->
  db (job env video_id video_path analyzer (new_session w)).2 !! video_id
  = Some {| filename := filename r; upload_time := upload_time r;
            analysis_time := analysis_time r; has_motion := has_motion r;
            processing_duration_ms := processing_duration_ms r; status := FAILED;
            error_message := Some (str e) |}.
Proof.
  intros Hr Hq Hc1 Hrq Hc3 Han. revert Hq Hc1 Hrq Hc3 Han.
  job_cases w video_id; intros; simplify_eq; rewrite ?lookup_insert_eq; reflexivity.
Qed.

(** When the detector raises and the store works, the record is stored as
    failed with [error_message] the text of the detector's exception; no
    result column is filled in. *)
Theorem run_stores_failure env video_id video_path name db_url analyzer db_session w r e :
  db w !! video_id = Some r ->
  query_raises env = None -> commit_processing_raises env = None ->
  requery_raises env = None -> commit_failed_raises env = None ->
  analyzer video_path = Raised e ->
  db (process_video_analysis env video_id video_path name db_url analyzer db_session w).2
    !! video_id
  = Some {| filename := filename r; upload_time := upload_time r;
            analysis_time := analysis_time r; has_motion := has_motion r;
            processing_duration_ms := processing_duration_ms r; status := FAILED;
            error_message := Some (str e) |}.
Proof. rewrite run_db. apply job_failed. Qed.

Lemma run_stores_failure_witness :
  db (sample_run calm cannot_open) !! 1%N
  = Some {| filename := "a.mp4"; upload_time := 100; analysis_time := None;
            has_motion := None; processing_duration_ms := None; status := FAILED;
            error_message := Some "Не удалось открыть видео файл: /tmp/1_a.mp4" |}.
Proof.
  apply (run_stores_failure calm 1 "/tmp/1_a.mp4" "a.mp4" "sqlite://" cannot_open (Some tt)
           sample_world (new_video_analysis "a.mp4" 100)
           (ValueError "Не удалось открыть видео файл: /tmp/1_a.mp4")); reflexivity.
Defined.

Lemma job_stuck env video_id video_path analyzer w r :
  db w !! video_id = Some r ->
  query_raises env = None -> commit_processing_raises env = None ->
  (exists e, analyzer video_path = Raised e) \/ is_Some (commit_completed_raises env) ->
  failed_write_raises env ->
  let wj := (job env video_id video_path analyzer (new_session w)).2 in
  db wj !! video_id = Some (set_status PROCESSING r)
  /\ metrics wj = increment_video_errors_m
                    (increment_video_processed_m (value FAILED) (metrics w)).
Proof.
  intros Hr Hq Hc1 Hfail Hw. revert Hr Hq Hc1.
  job_cases w video_id; intros; simplify_eq; rewrite ?lookup_insert_eq.
  all: try (split; reflexivity).
  all: try (destruct Hfail as [[? ?] | [? ?]]; simplify_eq).
  all: destruct Hw as [[? ?] | [? ?]]; simplify_eq.
Qed.

(** The stuck state: when the detector call or the commit of its result
    fails and the write of failed does not go through either, the record
    stays in processing, with no error message, although the run is counted
    as failed. *)
Theorem run_leaves_processing env video_id video_path name db_url analyzer db_session w r :
  db w !! video_id = Some r ->
  query_raises env = None -> commit_processing_raises env = None ->
  (exists e, analyzer video_path = Raised e) \/ is_Some (commit_completed_raises env) ->
  failed_write_raises env ->
  let w' := (process_video_analysis env video_id video_path name db_url
               analyzer db_session w).2 in
  db w' !! video_id = Some (set_status PROCESSING r)
  /\ labels (video_processed_total (metrics w')) (value FAILED)
     = S (labels (video_processed_total (metrics w)) (value FAILED)).
Proof.
  intros Hr Hq Hc1 Hfail Hw. simpl.
  destruct (job_stuck env video_id video_path analyzer w r Hr Hq Hc1 Hfail Hw) as [Hdb Hm].
  destruct (run_counters env video_id video_path name db_url analyzer db_session w)
    as (-> & _ & _).
  rewrite run_db, Hm. split; [exact Hdb |]. simpl. apply labels_increment.
Qed.

Lemma run_leaves_processing_witness :
  db (sample_run (with_requery_raises (SQLAlchemyError "connection lost") calm) cannot_open)
    !! 1%N
  = Some (set_status PROCESSING (new_video_analysis "a.mp4" 100)).
Proof.
  refine (proj1 (run_leaves_processing
                   (with_requery_raises (SQLAlchemyError "connection lost") calm)
                   1 "/tmp/1_a.mp4" "a.mp4" "sqlite://" cannot_open (Some tt)
                   sample_world (new_video_analysis "a.mp4" 100) _ _ _ _ _)).
  - reflexivity.
  - reflexivity.
  - reflexivity.
  - left. eexists. reflexivity.
  - left. eexists. reflexivity.
Defined.

(** ** The session, the files and the log *)

Lemma job_never_closes env video_id video_path analyzer w :
  Forall (fun ev => is_close ev = false)
    (new_events w (job env video_id video_path analyzer (new_session w)).2).
Proof. job_cases w video_id; trace_norm; repeat constructor. Qed.

Lemma finally_block_events env video_path should_close w :
  exists evs,
    new_events w (finally_block env video_path should_close w).2
    = evs ++ (if should_close then [Close] else [])
    /\ Forall (fun ev => is_close ev = false) evs.
Proof.
  finally_cases env should_close; unfold new_events; simpl;
    rewrite <- ?app_assoc, ?drop_app_length, ?drop_all; simpl.
  all: match goal with
       | |- exists evs, ?L = evs ++ [Close] /\ _ => exists (removelast L)
       | |- exists evs, ?L = evs ++ [] /\ _ => exists L
       end; simpl; split; try reflexivity; repeat constructor.
Qed.

(** A session handed in by the caller is never closed; a session the run
    opened itself is closed exactly once, as the last thing the run does,
    whatever failed before. *)
Theorem run_closes_own_session env video_id video_path name db_url analyzer db_session w :
  exists evs,
    new_events w
      (process_video_analysis env video_id video_path name db_url analyzer db_session w).2
    = evs ++ (if should_close db_session then [Close] else [])
    /\ Forall (fun ev => is_close ev = false) evs.
Proof.
  rewrite run_split. simpl.
  destruct (finally_block_events env video_path (should_close db_session)
              (job env video_id video_path analyzer (new_session w)).2) as (evf & Ht & Hf).
  destruct (finally_block_trace env video_path (should_close db_session)
              (job env video_id video_path analyzer (new_session w)).2) as (evs & Htr & _).
  rewrite (new_events_app _ _ _ Htr) in Ht.
  exists (new_events w (job env video_id video_path analyzer (new_session w)).2 ++ evf). split.
  - apply new_events_app. rewrite Htr, job_trace, Ht, <- !app_assoc. reflexivity.
  - apply Forall_app. split; [apply job_never_closes | exact Hf].
Qed.

(** Files: a run creates none and removes none but the artifact; the
    artifact is still there afterwards exactly when it was there before and
    [os.remove] raised. *)
Theorem run_touches_only_artifact env video_id video_path name db_url analyzer db_session w :
  let w' := (process_video_analysis env video_id video_path name db_url
               analyzer db_session w).2 in
  (forall p, p ≠ video_path -> p ∈ files w' <-> p ∈ files w)
  /\ (video_path ∈ files w' <-> video_path ∈ files w /\ is_Some (remove_raises env)).
Proof.
  simpl. rewrite run_files. split.
  - intros p Hp. destruct (remove_raises env); [reflexivity |].
    rewrite elem_of_difference, elem_of_singleton. tauto.
  - destruct (remove_raises env) as [e|].
    + split; [intros H; split; [exact H | by exists e] | tauto].
    + rewrite elem_of_difference, elem_of_singleton.
      split; [tauto | intros [_ [? ?]]; discriminate].
Qed.

Lemma finally_block_logs env video_path should_close w :
  let evs := new_events w (finally_block env video_path should_close w).2 in
  (forall e, remove_raises env = Some e -> video_path ∈ files w ->
     In (Log ERROR ("Ошибка при удалении временного файла: " +:+ str e)) evs)
  /\ (forall e, count_raises env = Some e ->
        In (Log ERROR ("Ошибка при обновлении метрики очереди: " +:+ str e)) evs).
Proof.
  finally_cases env should_close; unfold new_events; simpl;
    rewrite <- ?app_assoc, ?drop_app_length; simpl.
  all: split; intros; simplify_eq; simpl; try tauto.
  all: try contradiction.
Qed.

(** The two cleanup errors that a run swallows are never silent: when
    [os.remove] raises for the artifact, and when the count query raises, the
    run writes an ERROR line that carries the text of the exception. *)
Theorem run_logs_cleanup_errors env video_id video_path name db_url analyzer db_session w :
  let evs := new_events w
               (process_video_analysis env video_id video_path name db_url
                  analyzer db_session w).2 in
  (forall e, remove_raises env = Some e -> video_path ∈ files w ->
     In (Log ERROR ("Ошибка при удалении временного файла: " +:+ str e)) evs)
  /\ (forall e, count_raises env = Some e ->
        In (Log ERROR ("Ошибка при обновлении метрики очереди: " +:+ str e)) evs).
Proof.
  simpl.
  pose proof (finally_block_logs env video_path (should_close db_session)
                (job env video_id video_path analyzer (new_session w)).2) as [Hrm Hct].
  assert (Hev : forall ev,
    In ev (new_events (job env video_id video_path analyzer (new_session w)).2
             (finally_block env video_path (should_close db_session)
                (job env video_id video_path analyzer (new_session w)).2).2) ->
    In ev (new_events w
             (process_video_analysis env video_id video_path name db_url
                analyzer db_session w).2)).
  { intros ev Hin. rewrite run_split. simpl.
    destruct (finally_block_trace env video_path (should_close db_session)
                (job env video_id video_path analyzer (new_session w)).2) as (evf & Ht & _).
    rewrite (new_events_app _ _ _ Ht) in Hin.
    rewrite (new_events_app w _ (new_events w (job env video_id video_path analyzer (new_session w)).2 ++ evf)).
    - apply in_or_app. right. exact Hin.
    - rewrite Ht, job_trace, <- !app_assoc. reflexivity. }
  split.
  - intros e He Hin. apply Hev, Hrm; [exact He |]. by rewrite job_files.
  - intros e He. apply Hev, Hct. exact He.
Qed.

(** ** One outcome per run *)

Lemma job_one_outcome env video_id video_path analyzer w :
  let m := metrics w in
  let m' := metrics (job env video_id video_path analyzer (new_session w)).2 in
  m' = m
  \/ (exists ms, m' = observe_processing_duration_m (ms # 1000)
                        (increment_video_processed_m (value COMPLETED) m))
  \/ m' = increment_video_errors_m (increment_video_processed_m (value FAILED) m).
Proof.
  job_cases w video_id; eauto.
  all: destruct w as [d f [p ds er q] t]; eauto.
Qed.

(** Every run reports at most one outcome: either no counter moves, or the
    counter labelled completed goes up by one together with one duration
    observation, or the counter labelled failed and the error counter both go
    up by one.  Counters under any other label are never touched and no
    counter ever goes down. *)
Theorem run_reports_one_outcome env video_id video_path name db_url analyzer db_session w :
  let m := metrics w in
  let m' := metrics (process_video_analysis env video_id video_path name db_url
                       analyzer db_session w).2 in
  let processed l := labels (video_processed_total m) l in
  let processed' l := labels (video_processed_total m') l in
  (forall l, l ≠ value COMPLETED -> l ≠ value FAILED -> processed' l = processed l)
  /\ ((processed' (value COMPLETED) = processed (value COMPLETED)
       /\ processed' (value FAILED) = processed (value FAILED)
       /\ video_errors_total m' = video_errors_total m
       /\ video_processing_duration_seconds m' = video_processing_duration_seconds m)
      \/ (processed' (value COMPLETED) = S (processed (value COMPLETED))
          /\ processed' (value FAILED) = processed (value FAILED)
          /\ video_errors_total m' = video_errors_total m
          /\ exists ms, video_processing_duration_seconds m'
                        = video_processing_duration_seconds m ++ [ms # 1000])
      \/ (processed' (value COMPLETED) = processed (value COMPLETED)
          /\ processed' (value FAILED) = S (processed (value FAILED))
          /\ video_errors_total m' = S (video_errors_total m)
          /\ video_processing_duration_seconds m' = video_processing_duration_seconds m)).
Proof.
  simpl.
  destruct (run_counters env video_id video_path name db_url analyzer db_session w)
    as (-> & -> & ->).
  destruct (job_one_outcome env video_id video_path analyzer w) as [-> | [[ms ->] | ->]];
    simpl.
  - split; [reflexivity |]. left. auto.
  - split; [intros l Hc Hf; by apply labels_increment_other |].
    right; left. rewrite labels_increment, labels_increment_other by done. eauto.
  - split; [intros l Hc Hf; by apply labels_increment_other |].
    right; right. rewrite labels_increment, labels_increment_other by done. auto.
Qed.

(** ** The queue depth *)

Lemma count_in_queue_insert_fresh d k r :
  d !! k = None ->
  count_in_queue (<[k := r]> d) = count_in_queue d + bool_to_Z (in_queue r).
Proof.
  intros Hk. unfold count_in_queue. rewrite map_filter_insert.
  destruct (in_queue r) eqn:Hr; simpl.
  - rewrite decide_True by done.
    rewrite map_size_insert_None by (by rewrite map_lookup_filter_None; left). lia.
  - rewrite decide_False by (simpl; congruence).
    rewrite delete_id by done. lia.
Qed.

Lemma count_in_queue_delete d k r :
  d !! k = Some r ->
  count_in_queue (delete k d) = count_in_queue d - bool_to_Z (in_queue r).
Proof.
  intros Hk.
  rewrite <- (insert_delete_id d k r Hk) at 2.
  rewrite count_in_queue_insert_fresh by apply lookup_delete_eq. lia.
Qed.

Lemma count_in_queue_insert d k r r' :
  d !! k = Some r ->
  count_in_queue (<[k := r']> d)
  = count_in_queue d - bool_to_Z (in_queue r) + bool_to_Z (in_queue r').
Proof.
  intros Hk. rewrite <- insert_delete_eq.
  rewrite count_in_queue_insert_fresh by apply lookup_delete_eq.
  rewrite (count_in_queue_delete d k r Hk). reflexivity.
Qed.

Lemma run_db_insert env video_id video_path name db_url analyzer db_session w r' :
  db (process_video_analysis env video_id video_path name db_url analyzer db_session w).2
    !! video_id = Some r' ->
  db (process_video_analysis env video_id video_path name db_url analyzer db_session w).2
  = <[video_id := r']> (db w).
Proof.
  intros Hr'. apply map_eq. intros k. destruct (decide (k = video_id)) as [-> | Hk].
  - by rewrite lookup_insert_eq.
  - rewrite lookup_insert_ne by done. rewrite run_db. by apply job_db_other.
Qed.

(** A run that takes a pending or processing record to completed or failed
    lowers the queue depth by one: when the count query works, the gauge
    after the run is the number of queued records before it minus one. *)
Theorem run_lowers_queue_depth env video_id video_path name db_url analyzer db_session
    w r r' :
  let w' := (process_video_analysis env video_id video_path name db_url
               analyzer db_session w).2 in
  count_raises env = None ->
  db w !! video_id = Some r -> in_queue r = true ->
  db w' !! video_id = Some r' -> terminal (status r') = true ->
  videos_in_queue (metrics w') = count_in_queue (db w) - 1.
Proof.
  simpl. intros Hc Hr Hq Hr' Ht.
  rewrite run_metrics, Hc. simpl. rewrite <- run_db with (filename := name) (db_url := db_url)
    (db_session := db_session).
  rewrite (run_db_insert _ _ _ _ _ _ _ _ r' Hr').
  rewrite (count_in_queue_insert _ _ r r' Hr), Hq.
  assert (in_queue r' = false) as ->.
  { unfold in_queue. destruct (status r'); try discriminate; reflexivity. }
  simpl. lia.
Qed.

Lemma run_lowers_queue_depth_witness :
  videos_in_queue (metrics (sample_run calm finds_motion)) = count_in_queue (db sample_world) - 1.
Proof.
  refine (run_lowers_queue_depth calm 1 "/tmp/1_a.mp4" "a.mp4" "sqlite://" finds_motion
            (Some tt) sample_world (new_video_analysis "a.mp4" 100)
            {| filename := "a.mp4"; upload_time := 100; analysis_time := Some 200;
               has_motion := Some true; processing_duration_ms := Some 1500;
               status := COMPLETED; error_message := None |} _ _ _ _ _).
  - reflexivity.
  - reflexivity.
  - reflexivity.
  - vm_compute. reflexivity.
  - reflexivity.
Defined.

(** ** The detector: which frames are compared *)

Lemma sampled_lookup period rest :
  forall gap i, sampled period gap rest !! i = rest !! (gap + i * S period)%nat.
Proof.
  induction rest as [|frame rest IH]; intros gap i; simpl.
  - by rewrite !lookup_nil.
  - destruct gap as [|gap].
    + destruct i as [|i]; simpl; [reflexivity |].
      rewrite IH. f_equal.
    + rewrite IH. reflexivity.
Qed.

Lemma motion_among_exists cvt self first fs :
  motion_among cvt self (cvt first) fs = true <->
  exists i f g, (first :: fs) !! i = Some f /\ (first :: fs) !! S i = Some g
                /\ exceeds self (cvt f) (cvt g) = true.
Proof.
  revert first. induction fs as [|frame fs IH]; intros first; simpl.
  - split; [discriminate |]. intros (i & f & g & _ & Hg & _).
    destruct i; discriminate.
  - rewrite orb_true_iff, IH. split.
    + intros [H | (i & f & g & Hf & Hg & H)].
      * exists 0%nat, first, frame. auto.
      * exists (S i), f, g. auto.
    + intros (i & f & g & Hf & Hg & H). destruct i as [|i]; simpl in *.
      * left. congruence.
      * right. exists i, f, g. auto.
Qed.

Lemma succ_mod_zero (fc m : Z) :
  0 < m -> fc mod m = m - 1 -> (fc + 1) mod m = 0.
Proof.
  intros Hm Hr. symmetry. apply (Z.mod_unique _ _ (fc / m + 1)); [lia |].
  pose proof (Z.div_mod fc m ltac:(lia)). lia.
Qed.

Lemma succ_mod_next (fc m : Z) :
  0 < m -> fc mod m < m - 1 -> (fc + 1) mod m = fc mod m + 1.
Proof.
  intros Hm Hr. symmetry. apply (Z.mod_unique _ _ (fc / m)).
  - pose proof (Z.mod_pos_bound fc m Hm). lia.
  - pose proof (Z.div_mod fc m ltac:(lia)). lia.
Qed.

(** The loop computes [motion_among] on the sampled frames: the early exit
    after ten analysed frames does not change the answer. *)
Lemma analyze_frames_sampled cvt self rest :
  0 <= frame_skip self ->
  forall prev_gray frame_count frames_analyzed motion_detected gap,
    Z.of_nat gap = frame_skip self - frame_count mod (frame_skip self + 1) ->
    exists n,
      analyze_frames cvt self rest prev_gray frame_count frames_analyzed motion_detected
      = Returned (motion_detected
                  || motion_among cvt self prev_gray
                       (sampled (Z.to_nat (frame_skip self)) gap rest), n).
Proof.
  intros Hskip. induction rest as [|frame rest IH];
    intros prev fc fa md gap Hgap; simpl.
  - rewrite orb_false_r. eauto.
  - destruct (Z.eqb_spec (frame_skip self + 1) 0) as [Hz | _]; [lia |].
    pose proof (Z.mod_pos_bound fc (frame_skip self + 1) ltac:(lia)) as Hb.
    destruct gap as [|gap].
    + rewrite succ_mod_zero by lia. simpl.
      fold (exceeds self prev (cvt frame)).
      destruct (exceeds self prev (cvt frame)) eqn:He; simpl.
      * destruct (10 <=? fa + 1).
        -- rewrite orb_true_r. eauto.
        -- destruct (IH (cvt frame) (fc + 1) (fa + 1) true
                       (Z.to_nat (frame_skip self))) as [n ->].
           { rewrite succ_mod_zero by lia. lia. }
           rewrite orb_true_r. simpl. eauto.
      * destruct (IH (cvt frame) (fc + 1) (fa + 1) md
                    (Z.to_nat (frame_skip self))) as [n ->].
        { rewrite succ_mod_zero by lia. lia. }
        eauto.
    + rewrite succ_mod_next by lia.
      destruct (Z.eqb_spec (fc mod (frame_skip self + 1) + 1) 0) as [Hz | _]; [lia |].
      simpl. apply IH. rewrite succ_mod_next by lia. lia.
Qed.

Lemma detect_motion_sampled cvt self cap start_time end_time video_path first rest :
  0 <= frame_skip self -> isOpened cap = true -> frames cap = first :: rest ->
  detect_motion cvt self cap start_time end_time video_path
  = Returned (motion_among cvt self (cvt first)
                (sampled (Z.to_nat (frame_skip self)) (Z.to_nat (frame_skip self)) rest),
              int ((end_time - start_time) * 1000)%Q).
Proof.
  intros Hskip Hopen Hfr. unfold detect_motion. rewrite Hopen, Hfr. simpl.
  destruct (analyze_frames_sampled cvt self rest Hskip (cvt first) 0 0 false
              (Z.to_nat (frame_skip self))) as [n ->].
  { rewrite Z.mod_0_l by lia. lia. }
  reflexivity.
Qed.

(** With [frame_skip = n >= 0] the detector compares frame 0 with frame
    [n+1], frame [n+1] with frame [2(n+1)] and so on, and nothing else: it
    reports motion exactly when one of these pairs exceeds the threshold. *)
Theorem detect_motion_compares_every_nth cvt self cap start_time end_time video_path :
  0 <= frame_skip self -> isOpened cap = true -> frames cap ≠ [] ->
  let step := S (Z.to_nat (frame_skip self)) in
  exists motion,
    detect_motion cvt self cap start_time end_time video_path
    = Returned (motion, int ((end_time - start_time) * 1000)%Q)
    /\ (motion = true <->
        exists i f g, frames cap !! (i * step)%nat = Some f
                      /\ frames cap !! (S i * step)%nat = Some g
                      /\ exceeds self (cvt f) (cvt g) = true).
Proof.
  intros Hskip Hopen Hne step.
  destruct (frames cap) as [|first rest] eqn:Hfr; [done |].
  eexists. split; [by apply detect_motion_sampled |].
  rewrite motion_among_exists.
  assert (Hlook : forall i,
    (first :: sampled (Z.to_nat (frame_skip self)) (Z.to_nat (frame_skip self)) rest) !! i
    = (first :: rest) !! (i * step)%nat).
  { intros [|i]; [reflexivity |]. simpl. rewrite sampled_lookup. reflexivity. }
  split; intros (i & f & g & Hf & Hg & He); exists i, f, g.
  - rewrite <- !Hlook. auto.
  - rewrite !Hlook. auto.
Qed.

Lemma detect_motion_compares_every_nth_witness :
  exists motion,
    detect_motion mean_gray production moving_clip 10 (25 # 2) "/tmp/1_a.mp4"
    = Returned (motion, 2500)
    /\ (motion = true <->
        exists i f g, frames moving_clip !! (i * 6)%nat = Some f
                      /\ frames moving_clip !! (S i * 6)%nat = Some g
                      /\ exceeds production (mean_gray f) (mean_gray g) = true).
Proof.
  apply (detect_motion_compares_every_nth mean_gray production moving_clip 10 (25 # 2)
           "/tmp/1_a.mp4"); [vm_compute; discriminate | reflexivity | discriminate].
Defined.

(** ** The detector: what it cannot report *)

Lemma sampled_short period gap rest :
  (length rest <= gap)%nat -> sampled period gap rest = [].
Proof.
  revert gap. induction rest as [|frame rest IH]; intros gap Hlen; simpl; [reflexivity |].
  destruct gap as [|gap]; simpl in Hlen; [lia |]. apply IH. lia.
Qed.

(** A clip with at most [frame_skip + 1] readable frames is reported as
    showing no motion, whatever its frames show: no frame but the first is
    ever looked at. *)
Theorem detect_motion_short_clip cvt self cap start_time end_time video_path :
  0 <= frame_skip self -> isOpened cap = true -> frames cap ≠ [] ->
  Z.of_nat (length (frames cap)) <= frame_skip self + 1 ->
  detect_motion cvt self cap start_time end_time video_path
  = Returned (false, int ((end_time - start_time) * 1000)%Q).
Proof.
  intros Hskip Hopen Hne Hlen.
  destruct (frames cap) as [|first rest] eqn:Hfr; [done |].
  rewrite (detect_motion_sampled cvt self cap _ _ _ first rest Hskip Hopen Hfr).
  rewrite sampled_short; [reflexivity |]. simpl in Hlen. lia.
Qed.

Lemma detect_motion_short_clip_witness :
  detect_motion mean_gray production
    {| isOpened := true; frames := [black; white; black; white; black; white] |}
    10 (25 # 2) "/tmp/1_a.mp4"
  = Returned (false, 2500).
Proof.
  apply (detect_motion_short_clip mean_gray production
           {| isOpened := true; frames := [black; white; black; white; black; white] |}
           10 (25 # 2) "/tmp/1_a.mp4");
    [vm_compute; discriminate | reflexivity | discriminate | vm_compute; discriminate].
Defined.

Lemma countNonZero_absdiff_same g :
  countNonZero (threshold (absdiff g g) 30 255) = 0.
Proof.
  unfold countNonZero, threshold, absdiff.
  assert (H : filter (fun x => x ≠ 0)
                (concat (map (map (fun x => if 30 <? x then 255 else 0))
                           (zip_with (zip_with (fun x y => Z.abs (x - y))) g g))) = []).
  { induction g as [|row g IH]; simpl; [reflexivity |].
    rewrite filter_app, IH, app_nil_r.
    induction row as [|x row IHr]; simpl; [reflexivity |].
    rewrite Z.sub_diag. simpl. rewrite filter_cons_False by (intros H; by apply H).
    exact IHr. }
  rewrite H. reflexivity.
Qed.

Lemma exceeds_same self g :
  (0 <= motion_threshold self)%Q -> exceeds self g g = false.
Proof.
  intros Hthr. unfold exceeds, motion_ratio. rewrite countNonZero_absdiff_same.
  apply negb_false_iff, Qle_bool_iff.
  destruct (0 <? _); [| exact Hthr].
  apply (Qle_trans _ 0); [| exact Hthr]. unfold Qle. simpl. lia.
Qed.

Lemma analyze_frames_static cvt self g rest :
  frame_skip self ≠ -1 -> (0 <= motion_threshold self)%Q ->
  Forall (fun frame => cvt frame = g) rest ->
  forall frame_count frames_analyzed,
  exists n, analyze_frames cvt self rest g frame_count frames_analyzed false
            = Returned (false, n).
Proof.
  intros Hskip Hthr Hall. induction Hall as [|frame rest Hg _ IH]; intros fc fa; simpl.
  - eauto.
  - destruct (Z.eqb_spec (frame_skip self + 1) 0) as [Hz | _]; [lia |].
    destruct (negb _); [apply IH |].
    rewrite Hg. fold (exceeds self g g). rewrite exceeds_same by done. apply IH.
Qed.

(** A static clip is never reported as moving: when all frames convert to the
    same grayscale image and the threshold is not negative, the detector
    returns no motion (for every [frame_skip] but -1). *)
Theorem detect_motion_static_clip cvt self cap start_time end_time video_path g :
  frame_skip self ≠ -1 -> (0 <= motion_threshold self)%Q ->
  isOpened cap = true -> frames cap ≠ [] ->
  Forall (fun frame => cvt frame = g) (frames cap) ->
  detect_motion cvt self cap start_time end_time video_path
  = Returned (false, int ((end_time - start_time) * 1000)%Q).
Proof.
  intros Hskip Hthr Hopen Hne Hall. unfold detect_motion. rewrite Hopen. simpl.
  destruct (frames cap) as [|first rest]; [done |].
  apply Forall_cons in Hall as [Hfirst Hall]. rewrite Hfirst.
  destruct (analyze_frames_static cvt self g rest Hskip Hthr Hall 0 0) as [n ->].
  reflexivity.
Qed.

Lemma detect_motion_static_clip_witness :
  detect_motion mean_gray {| motion_threshold := 0; frame_skip := 0 |}
    {| isOpened := true; frames := [white; white; white] |} 10 (25 # 2) "/tmp/1_a.mp4"
  = Returned (false, 2500).
Proof.
  apply (detect_motion_static_clip mean_gray {| motion_threshold := 0; frame_skip := 0 |}
           {| isOpened := true; frames := [white; white; white] |} 10 (25 # 2)
           "/tmp/1_a.mp4" (mean_gray white));
    [discriminate | vm_compute; discriminate | reflexivity | discriminate
    | repeat constructor].
Defined.

Lemma count_le_length (l : list Z) :
  (length (filter (fun x : Z => x ≠ 0%Z) l) <= length l)%nat.
Proof. apply length_filter. Qed.

Lemma shaped_absdiff h w a b :
  shaped h w a -> shaped h w b -> shaped h w (absdiff a b).
Proof.
  intros [Ha Hra] [Hb Hrb]. unfold absdiff. split.
  - rewrite length_zip_with. lia.
  - clear Ha Hb. revert b Hrb. induction Hra as [|ra a Hlen _ IH]; intros b Hrb; simpl.
    + constructor.
    + destruct Hrb as [|rb b Hlenb Hrb]; constructor.
      * rewrite length_zip_with. lia.
      * apply IH. exact Hrb.
Qed.

Lemma shaped_threshold h w g t m : shaped h w g -> shaped h w (threshold g t m).
Proof.
  intros [Hg Hr]. unfold threshold. split.
  - by rewrite length_map.
  - apply Forall_map. eapply Forall_impl; [exact Hr |]. intros row Hrow. simpl.
    by rewrite length_map.
Qed.

Lemma shaped_pixels h w g : shaped h w g -> length (concat g) = (h * w)%nat.
Proof.
  intros [<- Hr]. induction Hr as [|row g Hrow _ IH]; simpl; [reflexivity |].
  rewrite length_app, IH, Hrow. reflexivity.
Qed.

(** Between two images of one shape at most all pixels change. *)
Lemma motion_ratio_le_1 h w prev_gray gray :
  shaped h w prev_gray -> shaped h w gray -> (motion_ratio prev_gray gray <= 1)%Q.
Proof.
  intros Hp Hg. unfold motion_ratio.
  pose proof (shaped_threshold h w _ 30 255 (shaped_absdiff h w _ _ Hp Hg)) as Ht.
  set (thresh := threshold (absdiff prev_gray gray) 30 255) in *.
  destruct (Z.ltb_spec 0 (shape0 thresh * shape1 thresh)) as [Hpos | _]; [| discriminate].
  unfold Qle. simpl. rewrite Z2Pos.id by lia. rewrite Z.mul_1_r.
  unfold countNonZero.
  pose proof (count_le_length (concat thresh)) as Hc.
  rewrite (shaped_pixels h w thresh Ht) in Hc.
  destruct Ht as [Hlen Hrows]. unfold shape0, shape1 in *.
  destruct thresh as [|row rows]; simpl in *; [lia |].
  apply Forall_cons in Hrows as [Hrow _]. rewrite Hrow. subst h. simpl in Hc. lia.
Qed.

Lemma exceeds_high_threshold self h w prev_gray gray :
  (1 <= motion_threshold self)%Q ->
  shaped h w prev_gray -> shaped h w gray -> exceeds self prev_gray gray = false.
Proof.
  intros Hthr Hp Hg. unfold exceeds. apply negb_false_iff, Qle_bool_iff.
  apply (Qle_trans _ 1); [by apply (motion_ratio_le_1 h w) | exact Hthr].
Qed.

Lemma analyze_frames_high_threshold cvt self h w rest :
  frame_skip self ≠ -1 -> (1 <= motion_threshold self)%Q ->
  Forall (fun frame => shaped h w (cvt frame)) rest ->
  forall prev_gray frame_count frames_analyzed, shaped h w prev_gray ->
  exists n, analyze_frames cvt self rest prev_gray frame_count frames_analyzed false
            = Returned (false, n).
Proof.
  intros Hskip Hthr Hall. induction Hall as [|frame rest Hg _ IH];
    intros prev fc fa Hprev; simpl.
  - eauto.
  - destruct (Z.eqb_spec (frame_skip self + 1) 0) as [Hz | _]; [lia |].
    destruct (negb (_ =? 0)); [by apply IH |].
    fold (exceeds self prev (cvt frame)).
    rewrite (exceeds_high_threshold self h w) by done. by apply IH.
Qed.

(** With a threshold of 1 or more the detector never reports motion on a
    clip whose frames all have one shape: the share of changed pixels cannot
    exceed 1. *)
Theorem detect_motion_high_threshold cvt self cap start_time end_time video_path h w :
  frame_skip self ≠ -1 -> (1 <= motion_threshold self)%Q ->
  isOpened cap = true -> frames cap ≠ [] ->
  Forall (fun frame => shaped h w (cvt frame)) (frames cap) ->
  detect_motion cvt self cap start_time end_time video_path
  = Returned (false, int ((end_time - start_time) * 1000)%Q).
Proof.
  intros Hskip Hthr Hopen Hne Hall. unfold detect_motion. rewrite Hopen. simpl.
  destruct (frames cap) as [|first rest]; [done |].
  apply Forall_cons in Hall as [Hfirst Hall].
  destruct (analyze_frames_high_threshold cvt self h w rest Hskip Hthr Hall
              (cvt first) 0 0 Hfirst) as [n ->].
  reflexivity.
Qed.

Lemma detect_motion_high_threshold_witness :
  detect_motion mean_gray {| motion_threshold := 1; frame_skip := 0 |}
    {| isOpened := true; frames := [black; white] |} 10 (25 # 2) "/tmp/1_a.mp4"
  = Returned (false, 2500).
Proof.
  apply (detect_motion_high_threshold mean_gray {| motion_threshold := 1; frame_skip := 0 |}
           {| isOpened := true; frames := [black; white] |} 10 (25 # 2) "/tmp/1_a.mp4"
           2%nat 2%nat);
    [discriminate | vm_compute; discriminate | reflexivity | discriminate
    | repeat constructor].
Defined.

Lemma motion_among_monotone cvt low high prev_gray fs :
  (motion_threshold low <= motion_threshold high)%Q ->
  motion_among cvt high prev_gray fs = true -> motion_among cvt low prev_gray fs = true.
Proof.
  intros Hle. revert prev_gray. induction fs as [|frame fs IH]; intros prev; simpl;
    [done |].
  rewrite !orb_true_iff. intros [H | H]; [left | right; by apply IH].
  unfold exceeds in *. apply negb_true_iff in H. apply negb_true_iff.
  destruct (Qle_bool (motion_ratio prev (cvt frame)) (motion_threshold low)) eqn:Hl;
    [| reflexivity].
  apply Qle_bool_iff in Hl.
  assert (Qle_bool (motion_ratio prev (cvt frame)) (motion_threshold high) = true).
  { apply Qle_bool_iff. by apply (Qle_trans _ (motion_threshold low)). }
  congruence.
Qed.

(** Lowering the threshold never loses a detection: a clip reported as
    moving is still reported as moving by an analyzer with the same
    [frame_skip] and a lower or equal threshold. *)
Theorem detect_motion_threshold_monotone cvt low high cap start_time end_time video_path d :
  frame_skip low = frame_skip high -> 0 <= frame_skip high ->
  (motion_threshold low <= motion_threshold high)%Q ->
  detect_motion cvt high cap start_time end_time video_path = Returned (true, d) ->
  detect_motion cvt low cap start_time end_time video_path = Returned (true, d).
Proof.
  intros Hsame Hskip Hle Hhigh.
  destruct (isOpened cap) eqn:Hopen;
    [| unfold detect_motion in Hhigh; rewrite Hopen in Hhigh; discriminate].
  destruct (frames cap) as [|first rest] eqn:Hfr;
    [unfold detect_motion in Hhigh; rewrite Hopen, Hfr in Hhigh; discriminate |].
  rewrite (detect_motion_sampled cvt high cap _ _ _ first rest Hskip Hopen Hfr) in Hhigh.
  rewrite (detect_motion_sampled cvt low cap _ _ _ first rest ltac:(lia) Hopen Hfr).
  injection Hhigh as Hm Hd. rewrite Hd, Hsame.
  by rewrite (motion_among_monotone cvt low high _ _ Hle Hm).
Qed.

Lemma detect_motion_threshold_monotone_witness :
  detect_motion mean_gray {| motion_threshold := 0; frame_skip := 0 |}
    {| isOpened := true; frames := [black; white] |} 10 (25 # 2) "/tmp/1_a.mp4"
  = Returned (true, 2500).
Proof.
  apply (detect_motion_threshold_monotone mean_gray
           {| motion_threshold := 0; frame_skip := 0 |}
           {| motion_threshold := 1 # 2; frame_skip := 0 |}
           {| isOpened := true; frames := [black; white] |} 10 (25 # 2) "/tmp/1_a.mp4" 2500);
    [reflexivity | discriminate | vm_compute; discriminate | reflexivity].
Defined.

Example is_video_file_samples :
  is_video_file "a.mp4" = true /\ is_video_file "CLIP.MOV" = true
  /\ is_video_file ".mp4" = false /\ is_video_file "a.mp4/" = false
  /\ is_video_file "archive.tar.webm" = true /\ is_video_file "a.txt" = false
  /\ is_video_file "dir.mp4/readme" = false /\ is_video_file "..mp4" = false
  /\ artifact_path "/tmp" 2 "a.mp4" = "/tmp/2_a.mp4".
Proof. vm_compute. repeat split; reflexivity. Qed.

(** ** The upload endpoint *)

(** The three phases of [analyze_video], by the faults of the environment. *)
Lemma create_record_eq env name w :
  create_record env name w =
  match insert_raises env with
  | Some e => (Raised e, w)
  | None =>
      if bool_decide (is_Some (db w !! uuid4 env))
      then (Raised (SQLAlchemyError "IntegrityError"), w)
      else
        let w1 := emit (Commit (uuid4 env) (new_video_analysis name (now env)))
                    (with_db (<[uuid4 env := new_video_analysis name (now env)]> (db w)) w) in
        match refresh_raises env with
        | Some e => (Raised e, w1)
        | None => (Returned (uuid4 env), w1)
        end
  end.
Proof.
  unfold create_record. py_unfold.
  destruct (insert_raises env); [reflexivity |].
  destruct (bool_decide (is_Some (db w !! uuid4 env))); [reflexivity |].
  destruct (refresh_raises env); reflexivity.
Qed.

Lemma save_upload_eq env video_id video_path name analyzer w :
  save_upload env video_id video_path name analyzer w =
  match open_raises env with
  | Some e => (Raised e, w)
  | None =>
      let w1 := with_files (files w ∪ {[video_path]}) w in
      match write_raises env with
      | Some e => (Raised e, w1)
      | None =>
          match queue_count_raises env with
          | Some e => (Raised e, w1)
          | None =>
              (Returned
                 ({| AnalyzeResponse.video_id := video_id;
                     AnalyzeResponse.status := value PENDING;
                     AnalyzeResponse.message := "Видео принято в обработку" |},
                  {| task_video_id := video_id; task_video_path := video_path;
                     task_filename := name; task_db_url := database_url env;
                     task_analyzer := analyzer |}),
               with_metrics (set_videos_in_queue_m (count_in_queue (db w1)) (metrics w1)) w1)
          end
      end
  end.
Proof.
  unfold save_upload. py_unfold.
  destruct (open_raises env); [reflexivity |].
  destruct (write_raises env); [reflexivity |].
  destruct (queue_count_raises env); reflexivity.
Qed.

Lemma discard_upload_eq env video_id video_path e w :
  discard_upload env video_id video_path e w =
  match delete_raises env with
  | Some e' => (Raised e', w)
  | None =>
      let w1 := with_db (delete video_id (db w)) w in
      if bool_decide (video_path ∈ files w)
      then
        match unlink_raises env with
        | Some e' => (Raised e', w1)
        | None =>
            (Returned tt,
             emit (Log ERROR ("Ошибка при сохранении видео: " +:+ str e))
               (emit (Remove video_path) (with_files (files w ∖ {[video_path]}) w1)))
        end
      else (Returned tt, emit (Log ERROR ("Ошибка при сохранении видео: " +:+ str e)) w1)
  end.
Proof.
  unfold discard_upload. py_unfold.
  destruct (delete_raises env); [reflexivity |]. simpl.
  destruct (bool_decide (video_path ∈ files w)) eqn:Hin; [| reflexivity].
  destruct (unlink_raises env); [reflexivity |]. simpl. rewrite Hin. reflexivity.
Qed.

Ltac upload_cases env :=
  unfold analyze_video; rewrite create_record_eq;
  destruct (insert_raises env) eqn:Hinsert;
  [| destruct (bool_decide (is_Some (db _ !! uuid4 env))) eqn:Htaken;
     [| apply bool_decide_eq_false in Htaken; rewrite <- eq_None_not_Some in Htaken;
        cbv zeta;
        destruct (refresh_raises env) eqn:Hrefresh;
        [| rewrite save_upload_eq;
           destruct (open_raises env) eqn:Hopen;
           [| cbv zeta; destruct (write_raises env) eqn:Hwrite;
              [| destruct (queue_count_raises env) eqn:Hcount ] ];
           rewrite ?discard_upload_eq;
           try (destruct (delete_raises env) eqn:Hdelete;
                [| cbv zeta;
                   destruct (bool_decide (_ ∈ files _)) eqn:Hpresent;
                   [ destruct (unlink_raises env) eqn:Hunlink |] ]) ] ] ].

(** What a call of [analyze_video] that responds has done. *)
Lemma analyze_video_responded env name analyzer w response task w' :
  analyze_video env name analyzer w = (Responded (response, task), w') ->
  let video_path := artifact_path (gettempdir env) (uuid4 env) name in
  is_video_file name = true
  /\ db w !! uuid4 env = None
  /\ db w' = <[uuid4 env := new_video_analysis name (now env)]> (db w)
  /\ files w' = files w ∪ {[video_path]}
  /\ metrics w' = set_videos_in_queue_m (count_in_queue (db w) + 1) (metrics w)
  /\ response = {| AnalyzeResponse.video_id := uuid4 env;
                   AnalyzeResponse.status := "pending";
                   AnalyzeResponse.message := "Видео принято в обработку" |}
  /\ task = {| task_video_id := uuid4 env; task_video_path := video_path;
               task_filename := name; task_db_url := database_url env;
               task_analyzer := analyzer |}.
Proof.
  destruct (is_video_file name) eqn:Hvideo; [| unfold analyze_video; rewrite Hvideo; discriminate].
  revert Hvideo. upload_cases env; intros Hvideo; rewrite ?Hvideo; simpl; try discriminate.
  intros H. injection H as <- <- <-. simpl. split_and!; try reflexivity.
  - exact Htaken.
  - rewrite count_in_queue_insert_fresh by exact Htaken. reflexivity.
Qed.

(** An accepted upload: whenever [analyze_video] responds, it has stored one
    new record, pending and unprocessed, under an id that was free, has left
    every other record alone, has written the artifact, has set the queue
    gauge to the number of queued records, and has scheduled the run of that
    record on that artifact. *)
Theorem upload_creates_pending_record env name analyzer w response task w' :
  analyze_video env name analyzer w = (Responded (response, task), w') ->
  let video_id := AnalyzeResponse.video_id response in
  is_video_file name = true
  /\ db w !! video_id = None
  /\ (exists r, db w' !! video_id = Some r /\ unprocessed r /\ status r = PENDING
                /\ filename r = name)
  /\ (forall k, k ≠ video_id -> db w' !! k = db w !! k)
  /\ files w' = files w ∪ {[task_video_path task]}
  /\ videos_in_queue (metrics w') = count_in_queue (db w')
  /\ count_in_queue (db w') = count_in_queue (db w) + 1
  /\ AnalyzeResponse.status response = value PENDING
  /\ task_video_id task = video_id /\ task_filename task = name
  /\ task_analyzer task = analyzer
  /\ task_video_path task = artifact_path (gettempdir env) video_id name.
Proof.
  intros H. apply analyze_video_responded in H.
  destruct H as (Hvideo & Hfresh & Hdb & Hfiles & Hmetrics & -> & ->). simpl.
  rewrite Hdb, Hfiles, Hmetrics. simpl.
  rewrite count_in_queue_insert_fresh by exact Hfresh.
  split_and!; try done.
  - exists (new_video_analysis name (now env)). rewrite lookup_insert_eq.
    by repeat split.
  - intros k Hk. by rewrite lookup_insert_ne.
Qed.

Lemma upload_creates_pending_record_witness :
  count_in_queue (db (sample_upload upload_calm).2) = count_in_queue (db sample_world) + 1.
Proof.
  assert (sample_upload upload_calm
          = (Responded (sample_response, sample_task), (sample_upload upload_calm).2)) as Hrun
    by (vm_compute; reflexivity).
  pose proof (upload_creates_pending_record upload_calm "b.mp4" finds_motion sample_world
                sample_response sample_task _ Hrun) as H.
  simpl in H. destruct H as (_ & _ & _ & _ & _ & _ & H & _). exact H.
Defined.

Lemma files_written_removed (X : gset string) p : (X ∪ {[p]}) ∖ {[p]} = X ∖ {[p]}.
Proof.
  apply set_eq. intros x.
  rewrite !elem_of_difference, elem_of_union, elem_of_singleton. tauto.
Qed.

Lemma files_never_written (X : gset string) p : p ∉ X -> X = X ∖ {[p]}.
Proof.
  intros Hp. apply set_eq. intros x. rewrite elem_of_difference, elem_of_singleton.
  split; [| tauto]. intros Hx. split; [exact Hx |]. intros ->. exact (Hp Hx).
Qed.

Lemma files_written_present (X : gset string) p : p ∈ X ∪ {[p]}.
Proof. apply elem_of_union. right. by apply elem_of_singleton. Qed.

(** A refused upload leaves nothing behind: when [analyze_video] raises an
    [HTTPException], its status is 400 for a name that is no video file,
    and then nothing has changed, or 500, and then the table and the metrics
    are what they were and no file exists at the artifact path; no file is
    ever created by such a call. *)
Theorem upload_http_error_leaves_nothing env name analyzer w status_code detail w' :
  analyze_video env name analyzer w = (HTTPException status_code detail, w') ->
  let video_path := artifact_path (gettempdir env) (uuid4 env) name in
  (status_code = 400 /\ is_video_file name = false /\ w' = w)
  \/ (status_code = 500 /\ is_video_file name = true
      /\ db w' = db w /\ metrics w' = metrics w
      /\ files w' = files w ∖ {[video_path]}
      /\ exists e, detail = "Ошибка при обработке файла: " +:+ str e
                   /\ last (trace w') = Some (Log ERROR ("Ошибка при сохранении видео: " +:+ str e))).
Proof.
  destruct (is_video_file name) eqn:Hvideo.
  - revert Hvideo. upload_cases env; intros Hvideo; rewrite ?Hvideo; simpl;
      intros H; try discriminate; injection H as <- <- <-; right; simpl;
      rewrite ?delete_insert_id by exact Htaken;
      try (apply bool_decide_eq_true in Hpresent);
      try (apply bool_decide_eq_false in Hpresent);
      simpl in *;
      try (exfalso; apply Hpresent, files_written_present);
      (split_and!; try reflexivity;
       first [ apply files_written_removed
             | by apply files_never_written
             | eexists; split; [reflexivity |]; unfold emit; simpl; by rewrite ?last_snoc ]).
  - unfold analyze_video. rewrite Hvideo. simpl. intros H. injection H as <- <- <-.
    left. by repeat split.
Qed.

Lemma upload_http_error_leaves_nothing_witness :
  db (sample_upload (with_open_raises (OSError "No space left on device") upload_calm)).2
  = db sample_world.
Proof.
  assert (exists detail,
            sample_upload (with_open_raises (OSError "No space left on device") upload_calm)
            = (HTTPException 500 detail,
               (sample_upload (with_open_raises (OSError "No space left on device")
                                 upload_calm)).2)) as [detail Hrun]
    by (eexists; vm_compute; reflexivity).
  destruct (upload_http_error_leaves_nothing _ "b.mp4" finds_motion sample_world _ _ _ Hrun)
    as [(Hcode & _) | (_ & _ & Hdb & _)]; [discriminate Hcode | exact Hdb].
Defined.

(** An upload that ends in an exception other than [HTTPException] has
    either changed nothing (the INSERT raised), or left the new pending
    record in the table with no run scheduled for it ([db.refresh] or the
    delete of the except clause raised), or removed the record but left the
    uploaded file ([os.remove] raised). *)
Theorem upload_unhandled_error env name analyzer w e w' :
  analyze_video env name analyzer w = (Unhandled e, w') ->
  let video_id := uuid4 env in
  let video_path := artifact_path (gettempdir env) video_id name in
  w' = w
  \/ (db w !! video_id = None
      /\ db w' = <[video_id := new_video_analysis name (now env)]> (db w)
      /\ (refresh_raises env = Some e \/ delete_raises env = Some e)
      /\ metrics w' = metrics w)
  \/ (db w' = db w /\ unlink_raises env = Some e /\ video_path ∈ files w'
      /\ metrics w' = metrics w).
Proof.
  destruct (is_video_file name) eqn:Hvideo;
    [| unfold analyze_video; rewrite Hvideo; discriminate].
  revert Hvideo. upload_cases env; intros Hvideo; rewrite ?Hvideo; simpl;
    intros H; try discriminate; injection H as <- <-;
    try (by left);
    try (right; left; by split_and!; auto);
    right; right; simpl; rewrite ?delete_insert_id by exact Htaken;
    apply bool_decide_eq_true in Hpresent; by split_and!.
Qed.

Lemma upload_unhandled_error_witness :
  db (sample_upload
        (with_delete_raises (SQLAlchemyError "server closed the connection")
           (with_open_raises (OSError "No space left on device") upload_calm))).2 !! 2%N
  = Some (new_video_analysis "b.mp4" 150).
Proof.
  set (env := with_delete_raises (SQLAlchemyError "server closed the connection")
                (with_open_raises (OSError "No space left on device") upload_calm)).
  assert (sample_upload env
          = (Unhandled (SQLAlchemyError "server closed the connection"),
             (sample_upload env).2)) as Hrun by (vm_compute; reflexivity).
  destruct (upload_unhandled_error env "b.mp4" finds_motion sample_world _ _ Hrun)
    as [Hsame | [(_ & Hdb & _) | (_ & Hunlink & _)]].
  - exfalso. apply (f_equal (fun w => length (trace w))) in Hsame.
    vm_compute in Hsame. discriminate.
  - rewrite Hdb. apply lookup_insert_eq.
  - discriminate Hunlink.
Defined.

(** ** Upload, run and poll *)

Lemma get_result_eq video_id w :
  get_result None video_id w
  = (match db w !! video_id with
     | Some video_record => Responded (model_validate video_id video_record)
     | None => HTTPException 404 "Видео не найдено"
     end, w).
Proof. unfold get_result. py_unfold. simpl. by destruct (db w !! video_id). Qed.

(** The whole flow with a store that works: after an accepted upload the
    client polls a pending record without results; after the scheduled run
    it polls the detector's outcome, completed with the result or failed
    with the error message.  The artifact is gone unless [os.remove] raised,
    and the queue gauge is back at the number of records queued before the
    upload. *)
Theorem upload_run_poll uenv renv name analyzer w response task w1 :
  analyze_video uenv name analyzer w = (Responded (response, task), w1) ->
  db_calm renv ->
  let video_id := AnalyzeResponse.video_id response in
  let w2 := (run_task renv task w1).2 in
  (get_result None video_id w1).1
  = Responded (model_validate video_id (new_video_analysis name (now uenv)))
  /\ (get_result None video_id w2).1
     = Responded
         match analyzer (task_video_path task) with
         | Returned (motion, ms) =>
             {| VideoAnalysisResponse.id := video_id;
                VideoAnalysisResponse.filename := name;
                VideoAnalysisResponse.upload_time := now uenv;
                VideoAnalysisResponse.analysis_time := Some (utcnow renv);
                VideoAnalysisResponse.has_motion := Some motion;
                VideoAnalysisResponse.processing_duration_ms := Some ms;
                VideoAnalysisResponse.status := COMPLETED;
                VideoAnalysisResponse.error_message := None |}
         | Raised e =>
             {| VideoAnalysisResponse.id := video_id;
                VideoAnalysisResponse.filename := name;
                VideoAnalysisResponse.upload_time := now uenv;
                VideoAnalysisResponse.analysis_time := None;
                VideoAnalysisResponse.has_motion := None;
                VideoAnalysisResponse.processing_duration_ms := None;
                VideoAnalysisResponse.status := FAILED;
                VideoAnalysisResponse.error_message := Some (str e) |}
         end
  /\ (remove_raises renv = None -> files w2 = files w ∖ {[task_video_path task]})
  /\ (count_raises renv = None -> videos_in_queue (metrics w2) = count_in_queue (db w)).
Proof.
  intros H (Hquery & Hprocessing & Hcompleted & Hrequery & Hfailed).
  apply analyze_video_responded in H.
  destruct H as (_ & Hfresh & Hdb & Hfiles & _ & -> & ->). simpl.
  unfold run_task. simpl.
  set (video_id := uuid4 uenv) in *.
  set (video_path := artifact_path (gettempdir uenv) video_id name) in *.
  set (r := new_video_analysis name (now uenv)) in *.
  assert (db w1 !! video_id = Some r) as Hr by (rewrite Hdb; apply lookup_insert_eq).
  rewrite !get_result_eq. simpl. rewrite Hr.
  set (w2 := (process_video_analysis renv video_id video_path name (database_url uenv)
                analyzer None w1).2).
  assert (exists r', db w2 !! video_id = Some r' /\ terminal (status r') = true
                     /\ model_validate video_id r'
                        = match analyzer video_path with
                          | Returned (motion, ms) =>
                              {| VideoAnalysisResponse.id := video_id;
                                 VideoAnalysisResponse.filename := name;
                                 VideoAnalysisResponse.upload_time := now uenv;
                                 VideoAnalysisResponse.analysis_time := Some (utcnow renv);
                                 VideoAnalysisResponse.has_motion := Some motion;
                                 VideoAnalysisResponse.processing_duration_ms := Some ms;
                                 VideoAnalysisResponse.status := COMPLETED;
                                 VideoAnalysisResponse.error_message := None |}
                          | Raised e =>
                              {| VideoAnalysisResponse.id := video_id;
                                 VideoAnalysisResponse.filename := name;
                                 VideoAnalysisResponse.upload_time := now uenv;
                                 VideoAnalysisResponse.analysis_time := None;
                                 VideoAnalysisResponse.has_motion := None;
                                 VideoAnalysisResponse.processing_duration_ms := None;
                                 VideoAnalysisResponse.status := FAILED;
                                 VideoAnalysisResponse.error_message := Some (str e) |}
                          end) as (r' & Hr' & Hterminal & Hview).
  { unfold w2. rewrite run_db.
    destruct (analyzer video_path) as [[motion ms] | e] eqn:Hdetect.
    - rewrite (job_completed renv video_id video_path analyzer w1 r motion ms) by done.
      eexists. split; [reflexivity |]. by split.
    - rewrite (job_failed renv video_id video_path analyzer w1 r e) by done.
      eexists. split; [reflexivity |]. by split. }
  rewrite Hr', Hview. split_and!; try reflexivity.
  - intros Hremove. unfold w2. rewrite run_files, Hremove, Hfiles.
    apply files_written_removed.
  - intros Hcount. unfold w2. rewrite run_metrics, Hcount. simpl.
    rewrite <- (run_db renv video_id video_path name (database_url uenv) analyzer None w1).
    rewrite (run_db_insert renv video_id video_path name (database_url uenv) analyzer None
               w1 r' Hr').
    rewrite Hdb, insert_insert_eq, count_in_queue_insert_fresh by exact Hfresh.
    unfold in_queue. destruct (status r'); simpl in *; try discriminate; lia.
Qed.

Lemma upload_run_poll_witness :
  (get_result None 2 (run_task calm sample_task (sample_upload upload_calm).2).2).1
  = Responded
      {| VideoAnalysisResponse.id := 2;
         VideoAnalysisResponse.filename := "b.mp4";
         VideoAnalysisResponse.upload_time := 150;
         VideoAnalysisResponse.analysis_time := Some 200;
         VideoAnalysisResponse.has_motion := Some true;
         VideoAnalysisResponse.processing_duration_ms := Some 1500;
         VideoAnalysisResponse.status := COMPLETED;
         VideoAnalysisResponse.error_message := None |}.
Proof.
  assert (sample_upload upload_calm
          = (Responded (sample_response, sample_task), (sample_upload upload_calm).2)) as Hrun
    by (vm_compute; reflexivity).
  assert (db_calm calm) as Hcalm by (by repeat split).
  destruct (upload_run_poll upload_calm calm "b.mp4" finds_motion sample_world
              sample_response sample_task _ Hrun Hcalm) as (_ & H & _).
  exact H.
Defined.

(** ** The extension check *)

Lemma list_ascii_of_string_app a b :
  list_ascii_of_string (a +:+ b) = list_ascii_of_string a ++ list_ascii_of_string b.
Proof. induction a as [|c a IH]; simpl; [reflexivity | by rewrite IH]. Qed.

Lemma string_of_list_ascii_app a b :
  string_of_list_ascii (a ++ b) = string_of_list_ascii a +:+ string_of_list_ascii b.
Proof. induction a as [|c a IH]; simpl; [reflexivity | by rewrite IH]. Qed.

Lemma rfind_range p c : -1 <= rfind p c < Z.of_nat (length p).
Proof.
  induction p as [|a p IH]; simpl; [lia |].
  destruct (Z.leb_spec 0 (rfind p c)); [lia |]. destruct (bool_decide (a = c)); lia.
Qed.

Lemma rfind_notin p c : c ∉ p -> rfind p c = -1.
Proof.
  induction p as [|a p IH]; simpl; [reflexivity |].
  intros Hc. apply not_elem_of_cons in Hc as [Hne Hc]. rewrite (IH Hc). simpl.
  rewrite bool_decide_eq_false_2; [reflexivity | congruence].
Qed.

Lemma rfind_last pre c post : c ∉ post -> rfind (pre ++ c :: post) c = Z.of_nat (length pre).
Proof.
  intros Hc. induction pre as [|a pre IH]; simpl.
  - rewrite (rfind_notin post c Hc). simpl. by rewrite bool_decide_eq_true_2.
  - rewrite IH. destruct (Z.leb_spec 0 (Z.of_nat (length pre))); lia.
Qed.

Lemma rfind_app_notin pre post c : c ∉ post -> rfind (pre ++ post) c = rfind pre c.
Proof.
  intros Hc. induction pre as [|a pre IH]; simpl; [by apply rfind_notin | by rewrite IH].
Qed.

(** No [c] stands behind the index that [rfind] gives. *)
Lemma rfind_behind p c : forall j a,
  rfind p c < Z.of_nat j -> p !! j = Some a -> a ≠ c.
Proof.
  induction p as [|b p IH]; intros j a Hj Ha; [done |]. simpl in Hj.
  destruct j as [|j]; simpl in Ha.
  - injection Ha as ->. destruct (Z.leb_spec 0 (rfind p c)); [lia |].
    destruct (bool_decide (a = c)) eqn:Hac; [lia |]. by apply bool_decide_eq_false in Hac.
  - apply (IH j a); [| exact Ha].
    destruct (Z.leb_spec 0 (rfind p c)); [lia |]. destruct (bool_decide (b = c)); lia.
Qed.

Lemma rfind_lookup p c : 0 <= rfind p c -> p !! Z.to_nat (rfind p c) = Some c.
Proof.
  induction p as [|a p IH]; simpl; [lia |].
  destruct (Z.leb_spec 0 (rfind p c)) as [Hpos | Hneg].
  - intros _. rewrite Z2Nat.inj_add by lia. rewrite Nat.add_1_r. simpl. by apply IH.
  - destruct (bool_decide (a = c)) eqn:Hac; [| lia].
    apply bool_decide_eq_true in Hac. by subst.
Qed.

Lemma has_stem_true p : forall steps filenameIndex,
  has_stem p filenameIndex steps = true <->
  exists j, (filenameIndex <= j < filenameIndex + steps)%nat /\ p !! j ≠ Some "."%char.
Proof.
  induction steps as [|steps IH]; intros i; simpl.
  - split; [discriminate | intros (j & Hj & _); lia].
  - destruct (bool_decide (p !! i = Some "."%char)) eqn:Hdot.
    + apply bool_decide_eq_true in Hdot. rewrite IH. split.
      * intros (j & Hj & Hne). exists j. split; [lia | exact Hne].
      * intros (j & Hj & Hne). exists j. split; [| exact Hne].
        destruct (decide (j = i)) as [-> |]; [done | lia].
    + apply bool_decide_eq_false in Hdot. split; [| done].
      intros _. exists i. split; [lia | exact Hdot].
Qed.

(** The extension that [splitext] finds, on lists of characters. *)
Lemma splitext_spec l stem ext :
  let sepIndex := rfind l "/" in
  let dotIndex := rfind l "." in
  ((sepIndex <? dotIndex)
   && has_stem l (Z.to_nat (sepIndex + 1)) (Z.to_nat (dotIndex - (sepIndex + 1))) = true
   /\ stem = take (Z.to_nat dotIndex) l /\ ext = drop (Z.to_nat dotIndex) l)
  <->
  (l = stem ++ ext
   /\ (exists rest, ext = "."%char :: rest /\ ("."%char ∉ rest) /\ ("/"%char ∉ rest))
   /\ exists dir c base, stem = dir ++ c :: base /\ c ≠ "."%char /\ c ≠ "/"%char
                         /\ ("/"%char ∉ base)).
Proof.
  intros sepIndex dotIndex. split.
  - intros (Hcond & -> & ->). apply andb_true_iff in Hcond as [Hlt Hstem].
    apply Z.ltb_lt in Hlt. apply has_stem_true in Hstem as (j & Hj & Hc).
    pose proof (rfind_range l "/") as Hsep. pose proof (rfind_range l ".") as Hdot.
    fold sepIndex in Hsep. fold dotIndex in Hdot.
    destruct (l !! j) as [c |] eqn:Hlj;
      [| apply lookup_ge_None in Hlj; lia].
    assert (c ≠ "."%char) as Hcdot by congruence.
    split; [by rewrite take_drop |]. split.
    + exists (drop (S (Z.to_nat dotIndex)) l). split_and!.
      * apply drop_S. apply rfind_lookup. fold dotIndex. lia.
      * intros Hin. apply list_elem_of_lookup in Hin as [k Hk].
        rewrite lookup_drop in Hk.
        refine (rfind_behind l "." _ _ _ Hk eq_refl). fold dotIndex. lia.
      * intros Hin. apply list_elem_of_lookup in Hin as [k Hk].
        rewrite lookup_drop in Hk.
        refine (rfind_behind l "/" _ _ _ Hk eq_refl). fold sepIndex. lia.
    + exists (take j l), c, (drop (S j) (take (Z.to_nat dotIndex) l)). split_and!.
      * transitivity (take j (take (Z.to_nat dotIndex) l)
                      ++ c :: drop (S j) (take (Z.to_nat dotIndex) l)).
        -- symmetry. apply take_drop_middle. rewrite lookup_take_lt by lia. exact Hlj.
        -- rewrite take_take, Nat.min_l by lia. reflexivity.
      * exact Hcdot.
      * apply (rfind_behind l "/" j c); [fold sepIndex; lia | exact Hlj].
      * intros Hin. apply list_elem_of_lookup in Hin as [k Hk].
        rewrite lookup_drop in Hk. apply lookup_take_Some in Hk as [Hk _].
        refine (rfind_behind l "/" _ _ _ Hk eq_refl). fold sepIndex. lia.
  - intros (-> & (rest & -> & Hdotrest & Hseprest) & dir & c & base & -> & Hcdot & Hcsep & Hsepbase).
    assert (dotIndex = Z.of_nat (length (dir ++ c :: base))) as Hdot.
    { unfold dotIndex. by rewrite rfind_last. }
    assert (sepIndex = rfind dir "/") as Hsep.
    { unfold sepIndex. rewrite rfind_app_notin.
      - rewrite rfind_app_notin; [reflexivity |].
        apply not_elem_of_cons. split; [congruence | exact Hsepbase].
      - apply not_elem_of_cons. split; [discriminate | exact Hseprest]. }
    pose proof (rfind_range dir "/") as Hrange.
    rewrite Hdot, Hsep, Nat2Z.id. rewrite length_app in *. simpl in *.
    split_and!.
    + apply andb_true_iff. split; [apply Z.ltb_lt; lia |].
      apply has_stem_true. exists (length dir). split; [lia |].
      rewrite <- app_assoc. rewrite lookup_app_r by lia. rewrite Nat.sub_diag. simpl.
      congruence.
    + rewrite take_app_length'; [reflexivity | by rewrite length_app].
    + rewrite drop_app_length'; [reflexivity | by rewrite length_app].
Qed.

Lemma allowed_extension ext :
  ext ∈ ALLOWED_VIDEO_EXTENSIONS ->
  exists rest, list_ascii_of_string ext = "."%char :: rest
               /\ ("."%char ∉ rest) /\ ("/"%char ∉ rest).
Proof.
  unfold ALLOWED_VIDEO_EXTENSIONS. rewrite !elem_of_union, !elem_of_singleton.
  intros [[[[[-> | ->] | ->] | ->] | ->] | ->]; simpl; eexists;
    (split; [reflexivity |]);
    split; intros Hin;
    repeat (apply elem_of_cons in Hin as [Hin | Hin]; [discriminate Hin |]);
    by apply elem_of_nil in Hin.
Qed.

(** [is_video_file] accepts exactly the names that, in lower case, consist
    of a stem and one of the six extensions, where the last path component
    of the stem has a character other than a dot. *)
Theorem is_video_file_spec name :
  is_video_file name = true <->
  exists stem ext, lower name = stem +:+ ext /\ ext ∈ ALLOWED_VIDEO_EXTENSIONS /\ named stem.
Proof.
  unfold is_video_file, splitext.
  set (l := list_ascii_of_string (lower name)).
  pose proof (splitext_spec l) as Hspec. cbv zeta in Hspec.
  destruct ((rfind l "/" <? rfind l ".")
            && has_stem l (Z.to_nat (rfind l "/" + 1))
                 (Z.to_nat (rfind l "." - (rfind l "/" + 1)))) eqn:Hcond.
  - rewrite bool_decide_eq_true. split.
    + intros Hext.
      destruct (proj1 (Hspec _ _) (conj eq_refl (conj eq_refl eq_refl)))
        as (Hl & _ & dir & c & base & Hstem & Hcdot & Hcsep & Hbase).
      eexists _, _. split_and!; [| exact Hext |].
      * rewrite <- string_of_list_ascii_app, <- Hl. unfold l.
        by rewrite string_of_list_ascii_of_string.
      * exists (string_of_list_ascii dir), c, (string_of_list_ascii base).
        split_and!; try done.
        -- rewrite Hstem, string_of_list_ascii_app. reflexivity.
        -- by rewrite list_ascii_of_string_of_list_ascii.
    + intros (stem & ext & Hname & Hext & dir & c & base & -> & Hcdot & Hcsep & Hbase).
      destruct (allowed_extension ext Hext) as (rest & Hrest & Hdot & Hsep).
      destruct (proj2 (Hspec (list_ascii_of_string (dir +:+ String c base))
                         (list_ascii_of_string ext))) as (_ & _ & Hdrop).
      { split_and!.
        - unfold l. by rewrite Hname, list_ascii_of_string_app.
        - by exists rest.
        - exists (list_ascii_of_string dir), c, (list_ascii_of_string base).
          split_and!; try done. by rewrite list_ascii_of_string_app. }
      by rewrite <- Hdrop, string_of_list_ascii_of_string.
  - split; [intros H; by apply bool_decide_eq_true in H |].
    intros (stem & ext & Hname & Hext & dir & c & base & -> & Hcdot & Hcsep & Hbase).
    destruct (allowed_extension ext Hext) as (rest & Hrest & Hdot & Hsep).
    destruct (proj2 (Hspec (list_ascii_of_string (dir +:+ String c base))
                       (list_ascii_of_string ext))) as (Habsurd & _).
    { split_and!.
      - unfold l. by rewrite Hname, list_ascii_of_string_app.
      - by exists rest.
      - exists (list_ascii_of_string dir), c, (list_ascii_of_string base).
        split_and!; try done. by rewrite list_ascii_of_string_app. }
    congruence.
Qed.

Lemma lower_allowed_extension ext :
  ext ∈ ALLOWED_VIDEO_EXTENSIONS -> lower ext = ext.
Proof.
  unfold ALLOWED_VIDEO_EXTENSIONS. rewrite !elem_of_union, !elem_of_singleton.
  intros [[[[[-> | ->] | ->] | ->] | ->] | ->]; reflexivity.
Qed.

Lemma lower_app a b : lower (a +:+ b) = lower a +:+ lower b.
Proof. induction a as [|c a IH]; simpl; [reflexivity | by rewrite IH]. Qed.

Lemma splitext_no_stem p pre rest :
  pre = [] \/ (exists d, pre = d ++ ["/"%char]) ->
  "."%char ∉ rest -> "/"%char ∉ rest ->
  list_ascii_of_string p = pre ++ "."%char :: rest ->
  splitext p = (p, EmptyString).
Proof.
  intros Hpre Hdot Hsep Hp. unfold splitext. rewrite Hp.
  rewrite rfind_last by exact Hdot.
  assert (rfind (pre ++ "."%char :: rest) "/" = Z.of_nat (length pre) - 1) as ->.
  { rewrite rfind_app_notin
      by (apply not_elem_of_cons; split; [discriminate | exact Hsep]).
    destruct Hpre as [-> | [d ->]]; [reflexivity |].
    rewrite rfind_last by apply not_elem_of_nil. rewrite length_app. simpl. lia. }
  replace (Z.to_nat (Z.of_nat (length pre) - (Z.of_nat (length pre) - 1 + 1))) with 0%nat
    by lia.
  simpl. by rewrite andb_false_r.
Qed.

(** A name whose last path component is nothing but one of the extensions,
    such as [.mp4] or [clips/.mov], is refused: [splitext] takes a leading
    dot for part of the name. *)
Theorem is_video_file_needs_a_stem dir ext :
  ext ∈ ALLOWED_VIDEO_EXTENSIONS ->
  is_video_file ext = false /\ is_video_file (dir +:+ "/" +:+ ext) = false.
Proof.
  intros Hext. destruct (allowed_extension ext Hext) as (rest & Hrest & Hdot & Hsep).
  unfold is_video_file. split.
  - rewrite (splitext_no_stem _ [] rest); [reflexivity | by left | done | done |].
    by rewrite (lower_allowed_extension ext Hext).
  - rewrite (splitext_no_stem _ (list_ascii_of_string (lower dir) ++ ["/"%char]) rest);
      [reflexivity | right; by eexists | done | done |].
    rewrite !lower_app, (lower_allowed_extension ext Hext), !list_ascii_of_string_app, Hrest.
    by rewrite <- app_assoc.
Qed.

Lemma is_video_file_needs_a_stem_witness :
  is_video_file ".mp4" = false /\ is_video_file ("clips" +:+ "/" +:+ ".mp4") = false.
Proof.
  apply (is_video_file_needs_a_stem "clips" ".mp4").
  unfold ALLOWED_VIDEO_EXTENSIONS. rewrite !elem_of_union, !elem_of_singleton. tauto.
Defined.

(** ** Artifact paths *)

(** The characters of a printed id: neither an underscore nor a slash. *)
Lemma pretty_N_char_plain x :
  pretty_N_char x ≠ "_"%char /\ pretty_N_char x ≠ "/"%char.
Proof. unfold pretty_N_char. by repeat case_match. Qed.

Lemma pretty_N_go_plain x : forall s,
  Forall (fun c => c ≠ "_"%char /\ c ≠ "/"%char) (list_ascii_of_string s) ->
  Forall (fun c => c ≠ "_"%char /\ c ≠ "/"%char) (list_ascii_of_string (pretty_N_go x s)).
Proof.
  induction (N.lt_wf_0 x) as [x _ IH]. intros s Hs.
  assert (x = 0 \/ 0 < x)%N as [-> | Hpos] by lia; [by rewrite pretty_N_go_0 |].
  rewrite pretty_N_go_step by done. apply IH; [by apply N.div_lt |].
  simpl. constructor; [apply pretty_N_char_plain | exact Hs].
Qed.

Lemma pretty_N_go_length x : forall s,
  (String.length s <= String.length (pretty_N_go x s))%nat.
Proof.
  induction (N.lt_wf_0 x) as [x _ IH]. intros s.
  assert (x = 0 \/ 0 < x)%N as [-> | Hpos] by lia; [by rewrite pretty_N_go_0 |].
  rewrite pretty_N_go_step by done.
  etrans; [| apply IH; by apply N.div_lt]. simpl. lia.
Qed.

Lemma pretty_N_plain (x : N) :
  Forall (fun c => c ≠ "_"%char /\ c ≠ "/"%char) (list_ascii_of_string (pretty x))
  /\ pretty x ≠ EmptyString.
Proof.
  unfold pretty, pretty_N. destruct (decide (x = 0%N)) as [-> | Hx].
  - split; [| discriminate]. simpl. by repeat constructor.
  - split; [apply pretty_N_go_plain; constructor |].
    assert (0 < x)%N as Hpos by lia. rewrite pretty_N_go_step by done.
    intros Hempty.
    pose proof (pretty_N_go_length (x `div` 10)
                  (String (pretty_N_char (x `mod` 10)) EmptyString)) as Hlen.
    rewrite Hempty in Hlen. simpl in Hlen. lia.
Qed.

Lemma underscore_splits (a b : list ascii) n1 n2 :
  Forall (fun c => c ≠ "_"%char /\ c ≠ "/"%char) a ->
  Forall (fun c => c ≠ "_"%char /\ c ≠ "/"%char) b ->
  a ++ "_"%char :: n1 = b ++ "_"%char :: n2 -> a = b /\ n1 = n2.
Proof.
  intros Ha. revert b. induction Ha as [|c a [Hc _] _ IH]; intros b Hb Heq.
  - destruct Hb as [|d b [Hd _] _]; simpl in Heq; [by injection Heq | congruence].
  - destruct Hb as [|d b [Hd _] Hb]; simpl in Heq; [congruence |].
    injection Heq as -> Heq. destruct (IH b Hb Heq) as [-> ->]. done.
Qed.

Lemma os_path_join_inj a b1 b2 :
  startswith b1 "/" = false -> startswith b2 "/" = false ->
  os_path_join a b1 = os_path_join a b2 -> b1 = b2.
Proof.
  unfold os_path_join. intros -> ->.
  destruct (bool_decide (a = EmptyString) || endswith a "/"); intros Heq.
  - by apply (inj (String.app a)) in Heq.
  - apply (inj (String.app a)) in Heq. by apply (inj (String.app "/")) in Heq.
Qed.

Lemma prefix_other_char a b s :
  a ≠ b -> String.prefix (String a EmptyString) (String b s) = false.
Proof. intros Hab. simpl. by destruct (ascii_dec a b). Qed.

Lemma artifact_name_startswith (video_id : N) name :
  startswith (pretty video_id +:+ "_" +:+ name) "/" = false.
Proof.
  destruct (pretty_N_plain video_id) as [Hplain Hne].
  destruct (pretty video_id) as [|c s] eqn:Hp; [done |].
  simpl in Hplain. apply Forall_cons in Hplain as [[_ Hc] _].
  unfold startswith.
  change (String c s +:+ "_" +:+ name) with (String c (s +:+ "_" +:+ name)).
  apply prefix_other_char. congruence.
Qed.

Lemma artifact_path_inj temp_dir id1 name1 id2 name2 :
  artifact_path temp_dir id1 name1 = artifact_path temp_dir id2 name2 ->
  id1 = id2 /\ name1 = name2.
Proof.
  unfold artifact_path. intros Heq.
  apply os_path_join_inj in Heq; try apply artifact_name_startswith.
  apply (f_equal list_ascii_of_string) in Heq.
  rewrite !list_ascii_of_string_app in Heq. simpl in Heq.
  apply underscore_splits in Heq as [Hid Hname]; try apply pretty_N_plain.
  split.
  - apply (inj pretty). by rewrite <- (string_of_list_ascii_of_string (pretty id1)), Hid,
      string_of_list_ascii_of_string.
  - by rewrite <- (string_of_list_ascii_of_string name1), Hname,
      string_of_list_ascii_of_string.
Qed.

(** No run removes the artifact of another record: the paths that line 150
    builds for two ids differ, whatever the uploaded names are (the printed
    id has neither an underscore nor a slash), so the artifact of a second
    upload is still there after the run of the first. *)
Theorem run_spares_other_artifacts env temp_dir id1 name1 id2 name2 db_url analyzer
    db_session w :
  id1 ≠ id2 ->
  artifact_path temp_dir id2 name2 ∈ files w ->
  artifact_path temp_dir id1 name1 ≠ artifact_path temp_dir id2 name2
  /\ artifact_path temp_dir id2 name2
     ∈ files (process_video_analysis env id1 (artifact_path temp_dir id1 name1) name1
                db_url analyzer db_session w).2.
Proof.
  intros Hid Hin.
  assert (artifact_path temp_dir id1 name1 ≠ artifact_path temp_dir id2 name2) as Hpath.
  { intros Heq. by apply artifact_path_inj in Heq as [? _]. }
  split; [exact Hpath |].
  rewrite run_files. destruct (remove_raises env); [exact Hin |].
  apply elem_of_difference. split; [exact Hin |].
  rewrite elem_of_singleton. congruence.
Qed.

Lemma run_spares_other_artifacts_witness :
  artifact_path "/tmp" 1 "2_a.mp4" ≠ artifact_path "/tmp" 12 "a.mp4"
  /\ artifact_path "/tmp" 12 "a.mp4"
     ∈ files (process_video_analysis calm 1 (artifact_path "/tmp" 1 "2_a.mp4") "2_a.mp4"
                "sqlite://" finds_motion None
                (with_files {[ "/tmp/1_2_a.mp4"; "/tmp/12_a.mp4" ]} sample_world)).2.
Proof.
  apply (run_spares_other_artifacts calm "/tmp" 1 "2_a.mp4" 12 "a.mp4").
  - discriminate.
  - vm_compute. reflexivity.
Defined.

(** ** A run with the detector of video_analyzer.py *)

(** The run and the detector together, with a store that works and
    [frame_skip >= 0]: a file that cannot be opened, or has no frame, leaves
    the record failed with the detector's message; any other file leaves it
    completed, with [has_motion] telling whether two consecutive sampled
    frames differ by more than the threshold. *)
Theorem run_with_video_analyzer env cvt self captures start_time end_time
    video_id video_path name db_url db_session w r :
  db w !! video_id = Some r -> db_calm env -> 0 <= frame_skip self ->
  let cap := captures video_path in
  let analyzer := video_analyzer cvt self captures start_time end_time in
  db (process_video_analysis env video_id video_path name db_url analyzer db_session w).2
    !! video_id
  = Some
      match isOpened cap, frames cap with
      | false, _ =>
          set_error_message ("Не удалось открыть видео файл: " +:+ video_path)
            (set_status FAILED r)
      | true, [] =>
          set_error_message "Не удалось прочитать первый кадр видео" (set_status FAILED r)
      | true, first :: rest =>
          {| filename := filename r; upload_time := upload_time r;
             analysis_time := Some (utcnow env);
             has_motion :=
               Some (motion_among cvt self (cvt first)
                       (sampled (Z.to_nat (frame_skip self)) (Z.to_nat (frame_skip self))
                          rest));
             processing_duration_ms := Some (int ((end_time - start_time) * 1000)%Q);
             status := COMPLETED; error_message := error_message r |}
      end.
Proof.
  intros Hr (Hquery & Hprocessing & Hcompleted & Hrequery & Hfailed) Hskip cap analyzer.
  rewrite run_db.
  destruct (isOpened cap) eqn:Hopen; [destruct (frames cap) as [|first rest] eqn:Hframes |].
  - rewrite (job_failed env video_id video_path analyzer w r
               (ValueError "Не удалось прочитать первый кадр видео")); try done.
    unfold analyzer, video_analyzer, detect_motion. fold cap. by rewrite Hopen, Hframes.
  - rewrite (job_completed env video_id video_path analyzer w r
               (motion_among cvt self (cvt first)
                  (sampled (Z.to_nat (frame_skip self)) (Z.to_nat (frame_skip self)) rest))
               (int ((end_time - start_time) * 1000)%Q)); try done.
    unfold analyzer, video_analyzer. by apply detect_motion_sampled.
  - rewrite (job_failed env video_id video_path analyzer w r
               (ValueError ("Не удалось открыть видео файл: " +:+ video_path))); try done.
    unfold analyzer, video_analyzer, detect_motion. fold cap. by rewrite Hopen.
Qed.

Lemma run_with_video_analyzer_witness :
  db (sample_run calm (video_analyzer mean_gray production (fun _ => zero_bytes) 10 (25 # 2)))
    !! 1%N
  = Some (set_error_message "Не удалось открыть видео файл: /tmp/1_a.mp4"
            (set_status FAILED (new_video_analysis "a.mp4" 100))).
Proof.
  apply (run_with_video_analyzer calm mean_gray production (fun _ => zero_bytes) 10 (25 # 2)
           1 "/tmp/1_a.mp4" "a.mp4" "sqlite://" (Some tt) sample_world
           (new_video_analysis "a.mp4" 100)).
  - reflexivity.
  - by repeat split.
  - discriminate.
Defined.
